(** * generate_icon.py: the launcher-icon pipeline, embedded and verified

    The script renders [assets/logo.svg] with [rsvg-convert], trims the
    transparent border, scales the content into a 744-pixel square area,
    pastes it centred on a white 1024x1024 canvas, flattens the canvas to
    RGB, writes [assets/icon.png] and removes the temporary raster.

    The embedding keeps the script's shape: a straight-line program in a
    state-and-exception monad over a filesystem, with Python's float
    arithmetic given by the binary64 instance of the Standard Library's
    [SpecFloat], and Pillow's image operations over bitmaps read through
    [getpixel]. *)

From Stdlib Require Import ZArith Lia List String Bool.
From Stdlib Require Import Floats.SpecFloat.
From stdpp Require Import base option strings gmap.
Import ListNotations.

Local Open Scope string_scope.
Local Open Scope list_scope.
Local Open Scope Z_scope.

(* ===================================================================== *)
(** * Python values: exceptions, floats, [min], [int] *)
(* ===================================================================== *)

(** The exceptions the script can raise.  None of them is caught. *)
Inductive exn : Type :=
| CalledProcessError (returncode : Z)
| FileNotFoundError (filename : string)
| UnidentifiedImageError (filename : string)
| ZeroDivisionError
| OverflowError
| ValueError (msg : string).

(** A computation that either raises or returns. *)
Inductive result (A : Type) : Type :=
| Raise (e : exn)
| Return (a : A).
Arguments Raise {A} e.
Arguments Return {A} a.

Module PyFloat.

(** Python's [float] is IEEE 754 binary64. *)
Definition prec : Z := 53.
Definition emax : Z := 1024.
Definition float : Type := spec_float.

(** [float(n)]: rounds to nearest-even; exact for |n| <= 2^53. *)
Definition of_int (n : Z) : float := binary_normalize prec emax n 0 false.

(** [a / b] on two ints.  Python rounds the exact quotient once; for
    operands that are exactly representable (|a|, |b| <= 2^53, which
    image dimensions are) that is the binary64 quotient of the two
    conversions. *)
Definition truediv (a b : Z) : result float :=
  if b =? 0 then Raise ZeroDivisionError
  else Return (SFdiv prec emax (of_int a) (of_int b)).

(** [n * x] with an int [n] and a float [x]: the int is converted first. *)
Definition mul_int (n : Z) (x : float) : float :=
  SFmul prec emax (of_int n) x.

(** The builtin [min(a, b)]: the first argument unless the second is
    strictly smaller. *)
Definition min (a b : float) : float :=
  if SFltb b a then b else a.

(** [int(x)]: truncation toward zero; infinities and NaN raise. *)
Definition int (x : float) : result Z :=
  match x with
  | S754_zero _ => Return 0
  | S754_finite s m e =>
      let a := match e with
               | Z0 => Zpos m
               | Zpos _ => Z.shiftl (Zpos m) e
               | Zneg p => Z.shiftr (Zpos m) (Zpos p)
               end in
      Return (if s then - a else a)
  | S754_infinity _ => Raise OverflowError
  | S754_nan => Raise (ValueError "cannot convert float NaN to integer")
  end.

End PyFloat.

(* ===================================================================== *)
(** * Pillow images *)
(* ===================================================================== *)

(** Pixels are tuples of 8-bit bands. *)
Definition rgba : Type := (Z * Z * Z * Z)%type.
Definition rgb : Type := (Z * Z * Z)%type.

Definition alpha (p : rgba) : Z := let '(_, _, _, a) := p in a.

(** An image mode fixes the name Pillow reports and the bands of a pixel. *)
Class Mode (P : Type) : Type := {
  mode_name : string;
  getbands : P -> list Z
}.

#[export] Instance Mode_RGBA : Mode rgba := {|
  mode_name := "RGBA";
  getbands := fun '(r, g, b, a) => [r; g; b; a]
|}.

#[export] Instance Mode_RGB : Mode rgb := {|
  mode_name := "RGB";
  getbands := fun '(r, g, b) => [r; g; b]
|}.

(** A bitmap: its [size] (width, height) and its pixels, read at (x, y)
    with 0 <= x < width and 0 <= y < height. *)
Record image (P : Type) : Type := {
  size : Z * Z;
  getpixel : Z * Z -> P
}.
Arguments size {P} _.
Arguments getpixel {P} _ _.

(** [im.mode] *)
Definition mode {P} `{Mode P} (im : image P) : string := mode_name.

Definition width {P} (im : image P) : Z := fst (size im).
Definition height {P} (im : image P) : Z := snd (size im).

(** The indices 0, ..., n-1 a scanning loop runs over. *)
Definition range (n : Z) : list Z := map Z.of_nat (seq 0 (Z.to_nat n)).

(** The operations of the imaging library, after Pillow's documented
    behaviour, on the functional bitmaps above. *)
Module Image.

(** [Image.new(mode, size, color)]. *)
Definition new {P} (sz : Z * Z) (color : P) : image P :=
  {| size := sz; getpixel := fun _ => color |}.

(** One step of the inner loop of the bounding-box scan, on row [y]:
    the state is (leftmost column, one past the rightmost column, whether
    the row has data). *)
Definition bbox_scan_pixel (im : image rgba) (y : Z)
           (st : Z * Z * bool) (x : Z) : Z * Z * bool :=
  let '(x0, x1, has_data) := st in
  if alpha (getpixel im (x, y)) =? 0 then st
  else ((if x <? x0 then x else x0), (if x1 <=? x then x + 1 else x1), true).

(** One step of the outer loop: scan row [y], then extend the rows. *)
Definition bbox_scan_row (im : image rgba)
           (bb : Z * Z * Z * Z) (y : Z) : Z * Z * Z * Z :=
  let '(x0, y0, x1, y1) := bb in
  let '(x0', x1', has_data) :=
    fold_left (bbox_scan_pixel im y) (range (width im)) (x0, x1, false) in
  if has_data
  then (x0', (if y0 <? 0 then y else y0), x1', y + 1)
  else (x0', y0, x1', y1).

(** Modelled from the spec: Pillow's [Image.getbbox] is a library routine,
    not part of the repository; the spec describes it as the tight
    bounding box of the pixels whose alpha is not zero, absent when the
    image is fully transparent.  The model is the row-major scan Pillow
    performs on the alpha band of an RGBA image, returning
    (left, upper, right, lower) with right and lower exclusive. *)
Definition getbbox (im : image rgba) : option (Z * Z * Z * Z) :=
  let '(x0, y0, x1, y1) :=
    fold_left (bbox_scan_row im) (range (height im)) (width im, -1, 0, 0) in
  if y0 <? 0 then None else Some (x0, y0, x1, y1).

(** [im.crop((left, upper, right, lower))]. *)
Definition crop {P} (im : image P) (box : Z * Z * Z * Z) : image P :=
  let '(x0, y0, x1, y1) := box in
  {| size := (x1 - x0, y1 - y0);
     getpixel := fun '(x, y) => getpixel im (x + x0, y + y0) |}.

(** [im.resize(size, resample)].  The resampling filter is a parameter
    [kernel src size xy]; Pillow refuses target sizes below one pixel. *)
Definition resize {P} (kernel : image P -> Z * Z -> Z * Z -> P)
           (im : image P) (sz : Z * Z) : result (image P) :=
  if (fst sz <? 1) || (snd sz <? 1)
  then Raise (ValueError "height and width must be > 0")
  else Return {| size := sz; getpixel := kernel im sz |}.

(** Pillow's 8-bit blend: (dst*(255-a) + src*a) / 255, rounded, by the
    shift-and-add division. *)
Definition div255 (t : Z) : Z :=
  let t' := t + 128 in Z.shiftr (Z.shiftr t' 8 + t') 8.

Definition blend (a dst src : Z) : Z := div255 (dst * (255 - a) + src * a).

Definition blend_rgba (a : Z) (dst src : rgba) : rgba :=
  let '(r1, g1, b1, a1) := dst in
  let '(r2, g2, b2, a2) := src in
  (blend a r1 r2, blend a g1 g2, blend a b1 b2, blend a a1 a2).

(** The region [im] covers when pasted at [(ox, oy)]. *)
Definition in_box {P} (im : image P) (at_ : Z * Z) (xy : Z * Z) : bool :=
  let '(ox, oy) := at_ in
  let '(x, y) := xy in
  (ox <=? x) && (x <? ox + width im) && (oy <=? y) && (y <? oy + height im).

(** [dst.paste(im, (ox, oy), mask)] with an RGBA mask: inside the region
    each band is blended with the mask's alpha as weight; outside, [dst]
    is untouched.  [paste] mutates [dst]; the script holds one reference
    to it, so the updated image is returned. *)
Definition paste (dst im : image rgba) (at_ : Z * Z) (mask : image rgba)
  : image rgba :=
  {| size := size dst;
     getpixel := fun xy =>
       if in_box im at_ xy
       then let src_xy := (fst xy - fst at_, snd xy - snd at_) in
            blend_rgba (alpha (getpixel mask src_xy))
                       (getpixel dst xy) (getpixel im src_xy)
       else getpixel dst xy |}.

(** [im.convert('RGB')] on an RGBA image drops the alpha band. *)
Definition drop_alpha (p : rgba) : rgb := let '(r, g, b, _) := p in (r, g, b).

Definition convert_RGB (im : image rgba) : image rgb :=
  {| size := size im; getpixel := fun xy => drop_alpha (getpixel im xy) |}.

(** [im.convert('RGBA')] on an RGB image adds an opaque alpha band. *)
Definition convert_RGBA (im : image rgb) : image rgba :=
  {| size := size im;
     getpixel := fun xy => let '(r, g, b) := getpixel im xy in (r, g, b, 255) |}.

End Image.

(* ===================================================================== *)
(** * The world the script runs in *)
(* ===================================================================== *)

(** An opened image of either mode. *)
Inductive any_image : Type :=
| RGBA_image (im : image rgba)
| RGB_image (im : image rgb).

(** [im.convert('RGBA')] on whatever was opened. *)
Definition as_rgba (im : any_image) : image rgba :=
  match im with
  | RGBA_image im => im
  | RGB_image im => Image.convert_RGBA im
  end.

(** What a path can hold: a vector document or an encoded bitmap.  PNG
    encoding is a fixed function of the bitmap, so equal bitmaps are equal
    files. *)
Inductive file : Type :=
| Svg (xml : string)
| Png (im : any_image).

(** An external program: from its arguments and the filesystem to its exit
    status and the filesystem it leaves. *)
Definition program : Type :=
  list string -> gmap string file -> Z * gmap string file.

(** The library calls the script makes, in the order it makes them. *)
Inductive call : Type :=
| subprocess_run (argv : list string)
| Image_open (path : string)
| Image_getbbox
| Image_crop (box : Z * Z * Z * Z)
| Image_new (sz : Z * Z)
| Image_resize (sz : Z * Z)
| Image_paste (at_ : Z * Z)
| Image_convert (mode : string)
| Image_save (path : string)
| os_remove (path : string)
| print (text : string) (values : list Z).

Record world : Type := {
  fs : gmap string file;
  trace : list call
}.

Definition record_call (c : call) (w : world) : world :=
  {| fs := fs w; trace := trace w ++ [c] |}.

Definition set_fs (m : gmap string file) (w : world) : world :=
  {| fs := m; trace := trace w |}.

(** The script's monad: state [world], uncaught exceptions. *)
Definition M (A : Type) : Type := world -> result A * world.

#[export] Instance result_ret : MRet result := fun _ a => Return a.
#[export] Instance result_bind : MBind result := fun _ _ f r =>
  match r with
  | Raise e => Raise e
  | Return a => f a
  end.

#[export] Instance M_ret : MRet M := fun _ a w => (Return a, w).
#[export] Instance M_bind : MBind M := fun _ _ f m w =>
  match m w with
  | (Raise e, w') => (Raise e, w')
  | (Return a, w') => f a w'
  end.

(** A library call computed in memory: recorded, then its outcome. *)
Definition traced {A} (c : call) (r : result A) : M A :=
  fun w => (r, record_call c w).

(** Arithmetic of the script itself: nothing recorded. *)
Definition lift {A} (r : result A) : M A := fun w => (r, w).

Definition pair_values (p : Z * Z) : list Z := [fst p; snd p].

Module subprocess.

(** [subprocess.run([cmd, *args], check=True)] with the executables found
    on the search path given by [PATH]. *)
Definition run (PATH : string -> option program)
           (cmd : string) (args : list string) : M unit :=
  fun w =>
    let w := record_call (subprocess_run (cmd :: args)) w in
    match PATH cmd with
    | None => (Raise (FileNotFoundError cmd), w)
    | Some prog =>
        let '(returncode, fs') := prog args (fs w) in
        if returncode =? 0
        then (Return tt, set_fs fs' w)
        else (Raise (CalledProcessError returncode), set_fs fs' w)
    end.

End subprocess.

Module ImageIO.

(** [Image.open(path)]. *)
Definition open (path : string) : M any_image :=
  fun w =>
    let w := record_call (Image_open path) w in
    match fs w !! path with
    | None => (Raise (FileNotFoundError path), w)
    | Some (Svg _) => (Raise (UnidentifiedImageError path), w)
    | Some (Png im) => (Return im, w)
    end.

(** [.convert('RGBA')], as a recorded call. *)
Definition convert_RGBA (im : any_image) : M (image rgba) :=
  traced (Image_convert "RGBA") (Return (as_rgba im)).

(** [im.save(path, 'PNG')]: creates or overwrites [path]. *)
Definition save (im : image rgb) (path : string) : M unit :=
  fun w =>
    let w := record_call (Image_save path) w in
    (Return tt, set_fs (<[path := Png (RGB_image im)]> (fs w)) w).

End ImageIO.

Module os.

(** [os.remove(path)]. *)
Definition remove (path : string) : M unit :=
  fun w =>
    let w := record_call (os_remove path) w in
    match fs w !! path with
    | None => (Raise (FileNotFoundError path), w)
    | Some _ => (Return tt, set_fs (delete path (fs w)) w)
    end.

End os.

Definition say (text : string) (values : list Z) : M unit :=
  traced (print text values) (Return tt).

(* ===================================================================== *)
(** * The script *)
(* ===================================================================== *)

Definition logo_svg : string := "assets/logo.svg".
Definition car_temp_png : string := "assets/car_temp.png".
Definition icon_png : string := "assets/icon.png".

(** The command line of step 1. *)
Definition rsvg_convert : string := "rsvg-convert".
Definition rsvg_args : list string :=
  ["-w"; "800"; "-h"; "800"; logo_svg; "-o"; car_temp_png].

Definition icon_size : Z := 1024.
Definition padding : Z := 140.
Definition max_area : Z := icon_size - (padding * 2).

Definition white : rgba := (255, 255, 255, 255).

(** [scale = min(max_area / car_w, max_area / car_h)] *)
Definition scale (car_w car_h : Z) : result PyFloat.float :=
  a ← PyFloat.truediv max_area car_w;
  b ← PyFloat.truediv max_area car_h;
  mret (PyFloat.min a b).

(** [new_w = int(car_w * scale)] *)
Definition new_w (car_w : Z) (scale : PyFloat.float) : result Z :=
  PyFloat.int (PyFloat.mul_int car_w scale).

(** [new_h = int(car_h * scale)] *)
Definition new_h (car_h : Z) (scale : PyFloat.float) : result Z :=
  PyFloat.int (PyFloat.mul_int car_h scale).

(** [offset_x = (icon_size - new_w) // 2]; [//] is floor division, as is
    [Z.div] for a positive divisor. *)
Definition offset_x (new_w : Z) : Z := (icon_size - new_w) / 2.

(** [offset_y = (icon_size - new_h) // 2] *)
Definition offset_y (new_h : Z) : Z := (icon_size - new_h) / 2.

Section Script.

(** The executables on the search path, and the LANCZOS resampling
    filter of the imaging library. *)
Variable PATH : string -> option program.
Variable LANCZOS : image rgba -> Z * Z -> Z * Z -> rgba.

(** Step 2: crop to the content when there is any. *)
Definition crop_to_content (car_img : image rgba) : M (image rgba) :=
  bbox ← traced Image_getbbox (Return (Image.getbbox car_img));
  match bbox with
  | Some box =>
      car_img ← traced (Image_crop box) (Return (Image.crop car_img box));
      say "Cropped car to: " (pair_values (size car_img));;
      mret car_img
  | None => mret car_img
  end.

(** Steps 3 to 6 and the clean-up, on the content bitmap. *)
Definition compose_icon (car_img : image rgba) : M unit :=
  icon ← traced (Image_new (icon_size, icon_size))
                (Return (Image.new (icon_size, icon_size) white));
  let '(car_w, car_h) := size car_img in
  scale ← lift (scale car_w car_h);
  new_w ← lift (new_w car_w scale);
  new_h ← lift (new_h car_h scale);
  car_img ← traced (Image_resize (new_w, new_h))
                   (Image.resize LANCZOS car_img (new_w, new_h));
  say "Scaled car to: " (pair_values (size car_img));;
  let offset_x := offset_x new_w in
  let offset_y := offset_y new_h in
  icon ← traced (Image_paste (offset_x, offset_y))
                (Return (Image.paste icon car_img (offset_x, offset_y) car_img));
  say "Placed at offset: " [offset_x; offset_y];;
  icon_rgb ← traced (Image_convert "RGB") (Return (Image.convert_RGB icon));
  ImageIO.save icon_rgb icon_png;;
  say "Generated icon.png: " (pair_values (size icon_rgb));;
  os.remove car_temp_png;;
  say "Done!" [].

(** The whole script, top to bottom. *)
Definition generate_icon : M unit :=
  subprocess.run PATH rsvg_convert rsvg_args;;
  im ← ImageIO.open car_temp_png;
  car_img ← ImageIO.convert_RGBA im;
  car_img ← crop_to_content car_img;
  compose_icon car_img.

End Script.

(* ===================================================================== *)
(** * Vocabulary of the statements *)
(* ===================================================================== *)

(** A pixel the scan counts as data, and a pixel of the image with alpha
    above zero. *)
Definition nonzero (im : image rgba) (x y : Z) : Prop :=
  alpha (getpixel im (x, y)) <> 0.

Definition inside {P} (im : image P) (x y : Z) : Prop :=
  0 <= x < width im /\ 0 <= y < height im.

Definition visible (im : image rgba) (x y : Z) : Prop :=
  inside im x y /\ 0 < alpha (getpixel im (x, y)).

(** Bands are 8-bit values. *)
Definition band (v : Z) : Prop := 0 <= v <= 255.

Definition valid_rgba (p : rgba) : Prop :=
  let '(r, g, b, a) := p in band r /\ band g /\ band b /\ band a.

Definition valid_image (im : image rgba) : Prop :=
  forall x y, inside im x y -> valid_rgba (getpixel im (x, y)).

(** The call of step 1. *)
Definition rasterizer_call : call := subprocess_run (rsvg_convert :: rsvg_args).

(** Several calls recorded at once. *)
Definition record_calls (cs : list call) (w : world) : world :=
  {| fs := fs w; trace := trace w ++ cs |}.

(** The content bitmap step 2 hands on, and the calls it makes. *)
Definition content (car_img : image rgba) : image rgba :=
  match Image.getbbox car_img with
  | Some box => Image.crop car_img box
  | None => car_img
  end.

Definition crop_calls (car_img : image rgba) : list call :=
  match Image.getbbox car_img with
  | Some box =>
      [Image_getbbox; Image_crop box;
       print "Cropped car to: " (pair_values (size (Image.crop car_img box)))]
  | None => [Image_getbbox]
  end.

(** The scaled size step 4 computes from the content size. *)
Definition scaled_size (sz : Z * Z) : result (Z * Z) :=
  let '(car_w, car_h) := sz in
  scale ← scale car_w car_h;
  new_w ← new_w car_w scale;
  new_h ← new_h car_h scale;
  mret (new_w, new_h).

(** The flattened canvas after step 6, given the resized content. *)
Definition flattened (resized : image rgba) (sz : Z * Z) : image rgb :=
  Image.convert_RGB
    (Image.paste (Image.new (icon_size, icon_size) white) resized
                 (offset_x (fst sz), offset_y (snd sz)) resized).

(** The calls of steps 3 to 6 and the clean-up on the success path. *)
Definition compose_calls (sz : Z * Z) : list call :=
  [Image_new (icon_size, icon_size);
   Image_resize sz;
   print "Scaled car to: " (pair_values sz);
   Image_paste (offset_x (fst sz), offset_y (snd sz));
   print "Placed at offset: " [offset_x (fst sz); offset_y (snd sz)];
   Image_convert "RGB";
   Image_save icon_png;
   print "Generated icon.png: " [icon_size; icon_size];
   os_remove car_temp_png;
   print "Done!" []].

(** The filesystem step 1 leaves behind, whether or not it succeeded. *)
Definition rasterized (PATH : string -> option program) (w : world)
  : gmap string file :=
  match PATH rsvg_convert with
  | None => fs w
  | Some prog => snd (prog rsvg_args (fs w))
  end.

(** A rasterizer whose exit status and output file are determined by the
    vector source alone, and which leaves that source as it found it. *)
Definition reads_only_logo (prog : program) : Prop :=
  (forall m m' : gmap string file,
      m !! logo_svg = m' !! logo_svg ->
      fst (prog rsvg_args m) = fst (prog rsvg_args m') /\
      snd (prog rsvg_args m) !! car_temp_png =
      snd (prog rsvg_args m') !! car_temp_png) /\
  (forall m : gmap string file,
      snd (prog rsvg_args m) !! logo_svg = m !! logo_svg).

(** ** Binary64 values as integers *)

(** [located N D mrs]: the non-negative rational N / D lies where the
    shift record says: at its mantissa, below, at, or above the midpoint
    to the next integer. *)
Definition located (N D : Z) (mrs : shr_record) : Prop :=
  let m := shr_m mrs in
  0 <= m /\
  match shr_r mrs, shr_s mrs with
  | false, false => N = m * D
  | false, true => m * D < N /\ 2 * N < (2 * m + 1) * D
  | true, false => 2 * N = (2 * m + 1) * D
  | true, true => (2 * m + 1) * D < 2 * N /\ N < (m + 1) * D
  end.

(** A finite positive binary64 number with a full 53-bit mantissa. *)
Definition normal (x : PyFloat.float) (m : positive) (e : Z) : Prop :=
  x = S754_finite false m e /\ 2 ^ 52 <= Zpos m < 2 ^ 53.

(** The value m * 2^e is max_area / x up to a relative error of 2^-53,
    above and below. *)
Definition approx_upper (m : positive) (e x : Z) : Prop :=
  Zpos m * x * (2 ^ 53 - 1) <= max_area * 2 ^ 53 * 2 ^ (- e).

Definition approx_lower (m : positive) (e x : Z) : Prop :=
  max_area * 2 ^ 53 * 2 ^ (- e) <= Zpos m * x * (2 ^ 53 + 1).

(* ===================================================================== *)
(** * Sample inputs *)
(* ===================================================================== *)

(** A raster that is transparent except for an opaque block. *)
Definition block_raster (sz : Z * Z) (box : Z * Z * Z * Z) : image rgba :=
  let '(x0, y0, x1, y1) := box in
  {| size := sz;
     getpixel := fun '(x, y) =>
       if (x0 <=? x) && (x <? x1) && (y0 <=? y) && (y <? y1)
       then (200, 30, 40, 255) else (0, 0, 0, 0) |}.

(** Nearest-neighbour resampling, standing in for the filter. *)
Definition nearest (im : image rgba) (sz xy : Z * Z) : rgba :=
  getpixel im (fst xy * width im / fst sz, snd xy * height im / snd sz).

(** A rasterizer that writes file [f] to the output path and exits with
    [returncode]. *)
Definition writes (f : file) (returncode : Z) : program :=
  fun _ m => (returncode, <[car_temp_png := f]> m).

(** A search path holding just the rasterizer. *)
Definition only_rsvg (prog : program) (cmd : string) : option program :=
  if String.eqb cmd rsvg_convert then Some prog else None.

(** A search path without the rasterizer. *)
Definition empty_PATH (cmd : string) : option program := None.

(** A checkout with the logo and nothing else. *)
Definition fresh_checkout : world :=
  {| fs := {[ logo_svg := Svg "<svg/>" ]}; trace := [] |}.

(* ===================================================================== *)
(** * The bounding-box scan *)
(* ===================================================================== *)

Lemma range_in (n x : Z) : In x (range n) <-> 0 <= x < n.
Proof.
  unfold range. rewrite in_map_iff. split.
  - intros (k & <- & Hk). apply in_seq in Hk. lia.
  - intros H. exists (Z.to_nat x). split; [lia|]. apply in_seq. lia.
Qed.

Lemma range_succ (n : nat) :
  range (Z.of_nat (S n)) = range (Z.of_nat n) ++ [Z.of_nat n].
Proof.
  unfold range. rewrite !Nat2Z.id, seq_S, map_app. reflexivity.
Qed.

Section Scan.
Variable im : image rgba.

(** What scanning the columns [xs] of row [y] does to the state. *)
Lemma scan_pixels (y : Z) (xs : list Z) : forall x0 x1 hd x0' x1' hd',
  fold_left (Image.bbox_scan_pixel im y) xs (x0, x1, hd) = (x0', x1', hd') ->
  x0' <= x0 /\ x1 <= x1' /\
  (forall x, In x xs -> nonzero im x y -> x0' <= x < x1') /\
  (x0' = x0 \/ (In x0' xs /\ nonzero im x0' y)) /\
  (x1' = x1 \/ (In (x1' - 1) xs /\ nonzero im (x1' - 1) y)) /\
  (hd' = true <-> hd = true \/ exists x, In x xs /\ nonzero im x y).
Proof.
  induction xs as [|x xs IH]; intros x0 x1 hd x0' x1' hd' H; simpl in H.
  - inversion H; subst. split_and!; try lia; auto.
    + intros ? [].
    + split; [auto | intros [?|(? & [] & _)]; assumption].
  - unfold nonzero in *.
    destruct (alpha (getpixel im (x, y)) =? 0) eqn:E.
    + apply Z.eqb_eq in E. apply IH in H as (A & B & C & D & F & G).
      split_and!; try lia.
      * intros z [->|Hz] Hnz; [congruence | auto].
      * destruct D as [?|[? ?]]; [left | right; split; [right|]]; auto.
      * destruct F as [?|[? ?]]; [left | right; split; [right|]]; auto.
      * split.
        -- intros Hh. apply G in Hh as [?|(z & ? & ?)]; [left; auto|].
           right; exists z; split; [right|]; auto.
        -- intros [?|(z & [->|?] & ?)]; apply G; [left; auto| congruence |].
           right; exists z; auto.
    + apply Z.eqb_neq in E. apply IH in H as (A & B & C & D & F & G).
      assert (Hx0 : (if x <? x0 then x else x0) <= x0)
        by (destruct (Z.ltb_spec x x0); lia).
      assert (Hx1 : x1 <= (if x1 <=? x then x + 1 else x1))
        by (destruct (Z.leb_spec x1 x); lia).
      split_and!; try lia.
      * intros z [->|Hz] Hnz; [|apply (C z); auto].
        destruct (Z.ltb_spec z x0); destruct (Z.leb_spec x1 z); lia.
      * destruct D as [->|[? ?]]; [|right; split; [right|]; auto].
        destruct (Z.ltb_spec x x0); [right; split; [left|]; auto | left; auto].
      * destruct F as [->|[? ?]]; [|right; split; [right|]; auto].
        destruct (Z.leb_spec x1 x); [right | left; auto].
        replace (x + 1 - 1) with x by lia. split; [left|]; auto.
      * split; [intros _; right; exists x; split; [left|]; auto|].
        intros _. apply G. left; reflexivity.
Qed.

(** The state of the scan once the rows below [k] are done. *)
Definition scan_inv (k : Z) (bb : Z * Z * Z * Z) : Prop :=
  let '(x0, y0, x1, y1) := bb in
  -1 <= y0 /\
  (y0 < 0 ->
     bb = (width im, -1, 0, 0) /\
     forall x y, 0 <= x < width im -> 0 <= y < k -> ~ nonzero im x y) /\
  (0 <= y0 ->
     (forall x y, 0 <= x < width im -> 0 <= y < k -> nonzero im x y ->
                  x0 <= x < x1 /\ y0 <= y < y1) /\
     (exists y, 0 <= x0 < width im /\ 0 <= y < k /\ nonzero im x0 y) /\
     (exists y, 0 <= x1 - 1 < width im /\ 0 <= y < k /\
                nonzero im (x1 - 1) y) /\
     (exists x, 0 <= x < width im /\ 0 <= y0 < k /\ nonzero im x y0) /\
     (exists x, 0 <= x < width im /\ 0 <= y1 - 1 < k /\
                nonzero im x (y1 - 1))).

Lemma scan_row_step (k : Z) (bb : Z * Z * Z * Z) :
  0 <= k -> scan_inv k bb -> scan_inv (k + 1) (Image.bbox_scan_row im bb k).
Proof.
  destruct bb as [[[x0 y0] x1] y1]. intros Hk (Hy0 & Hnone & Hsome).
  unfold Image.bbox_scan_row.
  destruct (fold_left _ _ _) as [[x0' x1'] hd] eqn:E.
  apply scan_pixels in E as (A & B & C & D & F & G).
  assert (Cr : forall x, 0 <= x < width im -> nonzero im x k -> x0' <= x < x1')
    by (intros x Hx; apply C, range_in, Hx).
  assert (Dr : x0' = x0 \/ (0 <= x0' < width im /\ nonzero im x0' k))
    by (destruct D as [?|[D ?]]; [left|right; apply range_in in D]; auto).
  assert (Fr : x1' = x1 \/ (0 <= x1' - 1 < width im /\ nonzero im (x1' - 1) k))
    by (destruct F as [?|[F ?]]; [left|right; apply range_in in F]; auto).
  clear C D F.
  destruct hd.
  - (* the row has data *)
    destruct G as [G _]. destruct (G eq_refl) as [?|(xk & Hxk & Hnz)];
      [discriminate|]. apply range_in in Hxk. clear G.
    pose proof (Cr xk Hxk Hnz) as Hxk'.
    destruct (Z.ltb_spec y0 0) as [Hneg|Hpos].
    + destruct (Hnone Hneg) as [Hinit Hempty]. inversion Hinit; subst.
      split; [lia|]. split; [lia|]. intros _. split_and!.
      * intros x y Hx Hy Hn. assert (y = k) as ->.
        { destruct (Z.eq_dec y k); [auto|]. exfalso. apply (Hempty x y); auto; lia. }
        split; [auto|lia].
      * exists k. destruct Dr as [?|[? ?]]; [lia|]. split_and!; auto; lia.
      * exists k. destruct Fr as [?|[? ?]]; [lia|]. split_and!; auto; lia.
      * exists xk. split_and!; auto; lia.
      * exists xk. replace (k + 1 - 1) with k by lia. split_and!; auto; lia.
    + destruct (Hsome Hpos) as (Hall & (ya & Ha1 & Ha2 & Ha3) & (yb & Hb1 & Hb2 & Hb3)
                              & (xc & Hc1 & Hc2 & Hc3) & (xd & Hd1 & Hd2 & Hd3)).
      split; [lia|]. split; [lia|]. intros _. split_and!.
      * intros x y Hx Hy Hn. destruct (Z.eq_dec y k) as [->|Hne].
        -- split; [auto|lia].
        -- destruct (Hall x y) as [? ?]; auto; lia.
      * destruct Dr as [->|[? ?]]; [exists ya | exists k]; split_and!; auto; lia.
      * destruct Fr as [->|[? ?]]; [exists yb | exists k]; split_and!; auto; lia.
      * exists xc. split_and!; try tauto; lia.
      * exists xk. replace (k + 1 - 1) with k by lia. split_and!; auto; lia.
  - (* the row is empty *)
    assert (Hrow : forall x, 0 <= x < width im -> ~ nonzero im x k).
    { intros x Hx Hn. destruct G as [_ G].
      enough (false = true) by discriminate.
      apply G. right. exists x. split; [apply range_in|]; auto. }
    assert (x0' = x0) as -> by (destruct Dr as [?|[? ?]]; [auto|exfalso; eapply Hrow; eauto]).
    assert (x1' = x1) as -> by (destruct Fr as [?|[? ?]]; [auto|exfalso; eapply Hrow; eauto]).
    split; [lia|]. split.
    + intros Hneg. destruct (Hnone Hneg) as [Hinit Hempty]. split; [auto|].
      intros x y Hx Hy. destruct (Z.eq_dec y k) as [->|]; [auto|].
      apply Hempty; auto; lia.
    + intros Hpos.
      destruct (Hsome Hpos) as (Hall & (ya & Ha1 & Ha2 & Ha3) & (yb & Hb1 & Hb2 & Hb3)
                              & (xc & Hc1 & Hc2 & Hc3) & (xd & Hd1 & Hd2 & Hd3)).
      split_and!.
      * intros x y Hx Hy Hn. destruct (Z.eq_dec y k) as [->|].
        -- exfalso. eapply Hrow; eauto.
        -- apply Hall; auto; lia.
      * exists ya. split_and!; try tauto; lia.
      * exists yb. split_and!; try tauto; lia.
      * exists xc. split_and!; try tauto; lia.
      * exists xd. split_and!; try tauto; lia.
Qed.

Lemma scan_rows (n : nat) :
  scan_inv (Z.of_nat n)
    (fold_left (Image.bbox_scan_row im) (range (Z.of_nat n))
               (width im, -1, 0, 0)).
Proof.
  induction n as [|n IH].
  - simpl. split; [lia|]. split; [|lia]. intros _. split; [auto|]. lia.
  - rewrite range_succ, fold_left_app. simpl fold_left at 1.
    replace (Z.of_nat (S n)) with (Z.of_nat n + 1) by lia.
    apply scan_row_step; [lia | exact IH].
Qed.

(** What [getbbox] returns, in terms of the pixels that are data. *)
Lemma getbbox_scan :
  match Image.getbbox im with
  | None =>
      forall x y, 0 <= x < width im -> 0 <= y < height im -> ~ nonzero im x y
  | Some (x0, y0, x1, y1) =>
      (forall x y, 0 <= x < width im -> 0 <= y < height im ->
                   nonzero im x y -> x0 <= x < x1 /\ y0 <= y < y1) /\
      (exists y, 0 <= x0 < width im /\ 0 <= y < height im /\ nonzero im x0 y) /\
      (exists y, 0 <= x1 - 1 < width im /\ 0 <= y < height im /\
                 nonzero im (x1 - 1) y) /\
      (exists x, 0 <= x < width im /\ 0 <= y0 < height im /\ nonzero im x y0) /\
      (exists x, 0 <= x < width im /\ 0 <= y1 - 1 < height im /\
                 nonzero im x (y1 - 1))
  end.
Proof.
  unfold Image.getbbox.
  pose proof (scan_rows (Z.to_nat (height im))) as Hinv.
  destruct (Z.le_gt_cases 0 (height im)) as [Hh|Hh].
  - rewrite Z2Nat.id in Hinv by lia.
    destruct (fold_left _ _ _) as [[[x0 y0] x1] y1].
    destruct Hinv as (Hy0 & Hnone & Hsome).
    destruct (Z.ltb_spec y0 0) as [Hneg|Hpos].
    + apply Hnone; auto.
    + apply Hsome; auto.
  - unfold range. replace (Z.to_nat (height im)) with 0%nat by lia.
    simpl. intros; lia.
Qed.

End Scan.

(* ===================================================================== *)
(** * Binary64 arithmetic on positive numbers *)
(* ===================================================================== *)

(** ** Bit lengths *)

Lemma digits2_pos_bounds (p : positive) :
  2 ^ (Zpos (digits2_pos p) - 1) <= Zpos p < 2 ^ Zpos (digits2_pos p).
Proof.
  induction p as [p IH|p IH|]; cbn [digits2_pos].
  - rewrite Pos2Z.inj_succ.
    replace (Z.succ (Zpos (digits2_pos p)) - 1) with (Z.succ (Zpos (digits2_pos p) - 1)) by lia.
    rewrite !Z.pow_succ_r by lia. lia.
  - rewrite Pos2Z.inj_succ.
    replace (Z.succ (Zpos (digits2_pos p)) - 1) with (Z.succ (Zpos (digits2_pos p) - 1)) by lia.
    rewrite !Z.pow_succ_r by lia. lia.
  - simpl. lia.
Qed.

Lemma digits2_pos_unique (p : positive) (d : Z) :
  2 ^ (d - 1) <= Zpos p < 2 ^ d -> Zpos (digits2_pos p) = d.
Proof.
  intros [Hlo Hhi]. pose proof (digits2_pos_bounds p) as [Blo Bhi].
  set (d' := Zpos (digits2_pos p)) in *.
  assert (Hd : 0 <= d).
  { destruct (Z.le_gt_cases 0 d); [assumption|].
    rewrite (Z.pow_neg_r 2 d) in Hhi by lia. lia. }
  destruct (Z.lt_trichotomy d' d) as [Hlt|[Heq|Hgt]]; [|assumption|].
  - assert (2 ^ d' <= 2 ^ (d - 1)) by (apply Z.pow_le_mono_r; lia). lia.
  - assert (2 ^ d <= 2 ^ (d' - 1)) by (apply Z.pow_le_mono_r; lia). lia.
Qed.

(** ** Shifting right with rounding information *)

Lemma shr_1_located (N D : Z) (mrs : shr_record) :
  0 < D -> located N D mrs ->
  located N (2 * D) (shr_1 mrs) /\ shr_m (shr_1 mrs) = shr_m mrs / 2.
Proof.
  intros HD. destruct mrs as [m r s]. unfold located. cbn [shr_m shr_r shr_s].
  intros [Hm Hloc].
  destruct m as [|[p|p|]|p]; try lia; cbn [shr_1 shr_m shr_r shr_s].
  - split; [|reflexivity]. split; [lia|].
    destruct r, s; cbn [orb]; lia.
  - split.
    + split; [lia|]. destruct r, s; cbn [orb]; lia.
    + apply Z.div_unique with (r := 1); lia.
  - split.
    + split; [lia|]. destruct r, s; cbn [orb]; lia.
    + apply Z.div_unique with (r := 0); lia.
  - split; [|reflexivity].
    split; [lia|]. destruct r, s; cbn [orb]; lia.
Qed.

Lemma iter_pos_invariant {A} (f : A -> A) (P : Z -> A -> Prop) :
  (forall k x, 0 <= k -> P k x -> P (k + 1) (f x)) ->
  forall (n : positive) (k : Z) (x : A),
    0 <= k -> P k x -> P (k + Zpos n) (SpecFloat.iter_pos f n x).
Proof.
  intros Hstep. induction n as [n IH|n IH|]; intros k x Hk HP; cbn [iter_pos].
  - replace (k + Zpos n~1) with (k + 1 + Zpos n + Zpos n) by lia.
    apply IH; [lia|]. apply IH; [lia|]. apply Hstep; assumption.
  - replace (k + Zpos n~0) with (k + Zpos n + Zpos n) by lia.
    apply IH; [lia|]. apply IH; assumption.
  - apply Hstep; assumption.
Qed.

Lemma shr_located (N D : Z) (mrs : shr_record) (e n : Z) :
  0 < D -> 0 <= n -> located N D mrs ->
  located N (D * 2 ^ n) (fst (shr mrs e n)) /\
  shr_m (fst (shr mrs e n)) = shr_m mrs / 2 ^ n /\
  snd (shr mrs e n) = e + n.
Proof.
  intros HD Hn Hloc. destruct n as [|p|p]; [| |lia].
  - cbn [shr fst snd]. rewrite Z.pow_0_r, Z.mul_1_r, Z.div_1_r.
    split; [assumption|]. split; [reflexivity|lia].
  - cbn [shr fst snd].
    assert (H : located N (D * 2 ^ (0 + Zpos p)) (SpecFloat.iter_pos shr_1 p mrs) /\
                shr_m (SpecFloat.iter_pos shr_1 p mrs) = shr_m mrs / 2 ^ (0 + Zpos p)).
    { apply (iter_pos_invariant shr_1
               (fun k x => located N (D * 2 ^ k) x /\
                           shr_m x = shr_m mrs / 2 ^ k)).
      - intros k x Hk [Hx Hm].
        assert (HDk : 0 < D * 2 ^ k)
          by (apply Z.mul_pos_pos; [assumption | apply Z.pow_pos_nonneg; lia]).
        destruct (shr_1_located N (D * 2 ^ k) x HDk Hx) as [Hl Hs].
        rewrite Z.pow_add_r, Z.pow_1_r by lia. split.
        + replace (D * (2 ^ k * 2)) with (2 * (D * 2 ^ k)) by lia. assumption.
        + rewrite Hs, Hm. pose proof (Z.pow_pos_nonneg 2 k).
          apply Z.div_div; lia.
      - lia.
      - rewrite Z.pow_0_r, Z.mul_1_r, Z.div_1_r. auto. }
    rewrite Z.add_0_l in H. destruct H as [H1 H2]. auto.
Qed.

(** ** Rounding to nearest, ties to even *)

Lemma round_nearest_even_located (N D : Z) (mrs : shr_record) :
  0 < D -> located N D mrs ->
  let m := round_nearest_even (shr_m mrs) (loc_of_shr_record mrs) in
  shr_m mrs <= m <= shr_m mrs + 1 /\
  2 * (m * D - N) <= D /\ 2 * (N - m * D) <= D.
Proof.
  intros HD. destruct mrs as [m r s]. unfold located.
  cbn [shr_m shr_r shr_s loc_of_shr_record]. intros [Hm Hloc].
  destruct r, s; cbn [round_nearest_even]; try lia.
  destruct (Z.even m); lia.
Qed.

(** ** Rounding a located value to 53 bits *)

Lemma fexp_normal (e : Z) :
  -1074 <= e - 53 -> fexp PyFloat.prec PyFloat.emax e = e - 53.
Proof. unfold fexp, emin, PyFloat.prec, PyFloat.emax. lia. Qed.

Lemma Zdigits2_unique (m d : Z) :
  0 < d -> 2 ^ (d - 1) <= m < 2 ^ d -> Zdigits2 m = d.
Proof.
  intros Hd Hm. assert (0 < m) by (pose proof (Z.pow_pos_nonneg 2 (d - 1)); lia).
  destruct m as [|p|p]; try lia. cbn [Zdigits2]. apply digits2_pos_unique, Hm.
Qed.

Lemma located_of_loc_m (m : Z) (l : location) : shr_m (shr_record_of_loc m l) = m.
Proof. destruct l as [|[| |]]; reflexivity. Qed.

Lemma shr_fexp_located (m e : Z) (l : location) (N D d : Z) :
  0 < D -> 2 ^ (d - 1) <= m < 2 ^ d -> 53 <= d -> -1074 <= e ->
  located N D (shr_record_of_loc m l) ->
  located N (D * 2 ^ (d - 53)) (fst (shr_fexp PyFloat.prec PyFloat.emax m e l)) /\
  shr_m (fst (shr_fexp PyFloat.prec PyFloat.emax m e l)) = m / 2 ^ (d - 53) /\
  snd (shr_fexp PyFloat.prec PyFloat.emax m e l) = e + (d - 53).
Proof.
  intros HD Hm Hd He Hloc. unfold shr_fexp.
  rewrite (Zdigits2_unique m d) by (auto; lia).
  rewrite fexp_normal by lia.
  replace (d + e - 53 - e) with (d - 53) by lia.
  pose proof (shr_located N D (shr_record_of_loc m l) e (d - 53) HD ltac:(lia) Hloc)
    as (H1 & H2 & H3).
  rewrite located_of_loc_m in H2. auto.
Qed.

Lemma pow2_52 : 2 ^ 52 = 4503599627370496.
Proof. reflexivity. Qed.

Lemma pow2_53 : 2 ^ 53 = 9007199254740992.
Proof. reflexivity. Qed.

Lemma pow2_split (a b : Z) : 0 <= a -> 0 <= b -> 2 ^ (a + b) = 2 ^ a * 2 ^ b.
Proof. intros. apply Z.pow_add_r; assumption. Qed.

Lemma binary_round_aux_correct (mx ex : Z) (lx : location) (N D d : Z) :
  0 < D -> 2 ^ (d - 1) <= mx < 2 ^ d -> 53 <= d ->
  -1074 <= ex -> ex + d - 52 <= 971 ->
  located N D (shr_record_of_loc mx lx) ->
  exists (m : positive) (e : Z),
    binary_round_aux PyFloat.prec PyFloat.emax false mx ex lx
    = S754_finite false m e /\
    2 ^ 52 <= Zpos m < 2 ^ 53 /\
    ex + d - 53 <= e <= ex + d - 52 /\
    2 * (Zpos m * 2 ^ (e - ex) * D - N) <= 2 ^ (d - 53) * D /\
    2 * (N - Zpos m * 2 ^ (e - ex) * D) <= 2 ^ (d - 53) * D.
Proof.
  intros HD Hmx Hd Hex Hemax Hloc.
  unfold binary_round_aux.
  destruct (shr_fexp_located mx ex lx N D d HD Hmx Hd Hex Hloc) as (L1 & M1 & E1).
  destruct (shr_fexp PyFloat.prec PyFloat.emax mx ex lx) as [mrs' e'].
  cbn [fst snd] in L1, M1, E1.
  set (P := 2 ^ (d - 53)) in *.
  assert (HP : 0 < P) by (apply Z.pow_pos_nonneg; lia).
  assert (Hsplit : 2 ^ (d - 1) = 2 ^ 52 * P /\ 2 ^ d = 2 ^ 53 * P).
  { unfold P. rewrite <- !pow2_split by lia. split; f_equal; lia. }
  destruct Hsplit as [Hs1 Hs2].
  assert (Hm' : 2 ^ 52 <= shr_m mrs' < 2 ^ 53).
  { rewrite M1. split.
    - apply Z.div_le_lower_bound; lia.
    - apply Z.div_lt_upper_bound; lia. }
  assert (HDP : 0 < D * P) by (apply Z.mul_pos_pos; assumption).
  pose proof (round_nearest_even_located N (D * P) mrs' HDP L1) as (R1 & R2 & R3).
  set (m1 := round_nearest_even (shr_m mrs') (loc_of_shr_record mrs')) in *.
  assert (Hexact : located m1 1 (shr_record_of_loc m1 loc_Exact)).
  { unfold located; cbn. lia. }
  destruct (Z.eq_dec m1 (2 ^ 53)) as [Hcarry|Hno].
  - (* the rounding carried into the next binade *)
    assert (Hb : 2 ^ (54 - 1) <= m1 < 2 ^ 54) by (rewrite Hcarry; simpl; lia).
    destruct (shr_fexp_located m1 e' loc_Exact m1 1 54 ltac:(lia) Hb ltac:(lia)
                ltac:(lia) Hexact) as (_ & M2 & E2).
    destruct (shr_fexp PyFloat.prec PyFloat.emax m1 e' loc_Exact) as [mrs'' e''].
    cbn [fst snd] in M2, E2. rewrite M2, Hcarry.
    assert (Hq : 2 ^ 53 / 2 ^ (54 - 53) = 4503599627370496) by reflexivity.
    rewrite Hq.
    assert (He'' : (e'' <=? PyFloat.emax - PyFloat.prec) = true).
    { apply Z.leb_le. unfold PyFloat.emax, PyFloat.prec. lia. }
    rewrite He''. exists 4503599627370496%positive, e''. split; [reflexivity|].
    rewrite pow2_52, pow2_53. split; [lia|]. split; [lia|].
    replace (e'' - ex) with (1 + (d - 53)) by lia.
    rewrite pow2_split by lia. fold P. rewrite Z.pow_1_r.
    rewrite pow2_53 in Hcarry. rewrite Hcarry in R2, R3.
    replace (4503599627370496 * (2 * P) * D) with (9007199254740992 * (D * P))
      by ring. lia.
  - assert (Hb : 2 ^ (53 - 1) <= m1 < 2 ^ 53).
    { change (53 - 1) with 52. rewrite pow2_52, pow2_53 in *. lia. }
    destruct (shr_fexp_located m1 e' loc_Exact m1 1 53 ltac:(lia) Hb ltac:(lia)
                ltac:(lia) Hexact) as (_ & M2 & E2).
    destruct (shr_fexp PyFloat.prec PyFloat.emax m1 e' loc_Exact) as [mrs'' e''].
    cbn [fst snd] in M2, E2. rewrite M2.
    change (2 ^ (53 - 53)) with 1. rewrite Z.div_1_r.
    change (53 - 1) with 52 in Hb.
    destruct m1 as [|p1|p1]; try (rewrite pow2_52 in Hb; lia).
    assert (He'' : (e'' <=? PyFloat.emax - PyFloat.prec) = true).
    { apply Z.leb_le. unfold PyFloat.emax, PyFloat.prec. lia. }
    rewrite He''. exists p1, e''. split; [reflexivity|].
    split; [exact Hb|]. split; [lia|].
    replace (e'' - ex) with (d - 53) by lia. fold P.
    replace (Zpos p1 * P * D) with (Zpos p1 * (D * P)) by lia. lia.
Qed.

(** ** Conversion from int *)

Lemma iter_xO_pow (k p : positive) :
  Zpos (Pos.iter xO p k) = Zpos p * 2 ^ Zpos k.
Proof.
  induction k as [|k IH] using Pos.peano_ind.
  - simpl. lia.
  - rewrite Pos.iter_succ, Pos2Z.inj_succ, Z.pow_succ_r by lia.
    change (Zpos (Pos.iter xO p k)~0) with (2 * Zpos (Pos.iter xO p k)).
    rewrite IH. lia.
Qed.

Lemma of_int_correct (n : Z) :
  1 <= n < 2 ^ 53 ->
  exists m e, normal (PyFloat.of_int n) m e /\
              -52 <= e <= 0 /\ Zpos m = n * 2 ^ (- e).
Proof.
  intros Hn. destruct n as [|p|p]; try lia.
  unfold PyFloat.of_int, binary_normalize, binary_round.
  pose proof (digits2_pos_bounds p) as Hd.
  set (d := Zpos (digits2_pos p)) in *.
  assert (Hd53 : 1 <= d <= 53).
  { split; [unfold d; lia|].
    destruct (Z.le_gt_cases d 53); [assumption|].
    assert (2 ^ 53 <= 2 ^ (d - 1)) by (apply Z.pow_le_mono_r; lia). lia. }
  rewrite Z.add_0_r, fexp_normal by lia.
  assert (Hshift : exists mz,
             shl_align p 0 (d - 53) = (mz, d - 53) /\
             Zpos mz = Zpos p * 2 ^ (53 - d)).
  { unfold shl_align. rewrite Z.sub_0_r.
    destruct (d - 53) as [|k|k] eqn:Ek; try lia.
    - exists p. split; [reflexivity|]. replace (53 - d) with 0 by lia. lia.
    - exists (Pos.iter xO p k). split; [reflexivity|].
      rewrite iter_xO_pow. f_equal. f_equal. lia. }
  destruct Hshift as (mz & -> & Hmz).
  assert (Hb : 2 ^ (53 - 1) <= Zpos mz < 2 ^ 53).
  { rewrite Hmz. change (53 - 1) with 52.
    assert (H52 : 2 ^ 52 = 2 ^ (d - 1) * 2 ^ (53 - d))
      by (rewrite <- pow2_split by lia; f_equal; lia).
    assert (H53 : 2 ^ 53 = 2 ^ d * 2 ^ (53 - d))
      by (rewrite <- pow2_split by lia; f_equal; lia).
    rewrite H52, H53.
    assert (0 < 2 ^ (53 - d)) by (apply Z.pow_pos_nonneg; lia).
    split; [apply Z.mul_le_mono_nonneg_r | apply Z.mul_lt_mono_pos_r]; lia. }
  destruct (binary_round_aux_correct (Zpos mz) (d - 53) loc_Exact (Zpos mz) 1 53)
    as (m & e & Hr & Hm & He & Hu & Hl); try lia.
  { unfold located; cbn. lia. }
  exists m, e. rewrite Hr.
  assert (e = d - 53) as ->.
  { destruct (Z.eq_dec e (d - 53)); [assumption|].
    replace (e - (d - 53)) with 1 in Hu, Hl by lia.
    change (2 ^ (53 - 53)) with 1 in Hu, Hl. rewrite Z.pow_1_r in Hu, Hl.
    change (53 - 1) with 52 in Hb. rewrite pow2_52, pow2_53 in *. lia. }
  replace (d - 53 - (d - 53)) with 0 in Hu, Hl by lia.
  change (2 ^ (53 - 53)) with 1 in Hu, Hl. rewrite Z.pow_0_r in Hu, Hl.
  split; [split; [reflexivity | assumption]|]. split; [lia|].
  replace (- (d - 53)) with (53 - d) by lia. lia.
Qed.

(** ** Multiplication and division of normal numbers *)

Lemma SFmul_correct (mx my : positive) (ex ey : Z) :
  2 ^ 52 <= Zpos mx < 2 ^ 53 -> 2 ^ 52 <= Zpos my < 2 ^ 53 ->
  -1074 <= ex + ey -> ex + ey + 54 <= 971 ->
  exists m e,
    normal (SFmul PyFloat.prec PyFloat.emax
                  (S754_finite false mx ex) (S754_finite false my ey)) m e /\
    52 <= e - (ex + ey) <= 54 /\
    2 * (Zpos m * 2 ^ (e - (ex + ey)) - Zpos mx * Zpos my) <= 2 ^ (e - (ex + ey)) /\
    2 * (Zpos mx * Zpos my - Zpos m * 2 ^ (e - (ex + ey))) <= 2 ^ (e - (ex + ey)).
Proof.
  intros Hx Hy Hlo Hhi. cbn [SFmul xorb].
  rewrite pow2_52, pow2_53 in Hx, Hy.
  assert (Hprod : 2 ^ 104 <= Zpos (mx * my) < 2 ^ 106).
  { rewrite Pos2Z.inj_mul.
    change (2 ^ 104) with (4503599627370496 * 4503599627370496).
    change (2 ^ 106) with (9007199254740992 * 9007199254740992).
    split.
    - apply Z.mul_le_mono_nonneg; lia.
    - apply Z.mul_lt_mono_nonneg; lia. }
  assert (Hd : exists d, 105 <= d <= 106 /\ 2 ^ (d - 1) <= Zpos (mx * my) < 2 ^ d).
  { destruct (Z.lt_ge_cases (Zpos (mx * my)) (2 ^ 105)).
    - exists 105. split; [lia|]. change (105 - 1) with 104. lia.
    - exists 106. split; [lia|]. change (106 - 1) with 105. lia. }
  destruct Hd as (d & Hd & Hb).
  destruct (binary_round_aux_correct (Zpos (mx * my)) (ex + ey) loc_Exact
              (Zpos (mx * my)) 1 d)
    as (m & e & Hr & Hm & He & Hu & Hl); try lia.
  { unfold located; cbn. lia. }
  exists m, e. rewrite Hr. split; [split; [reflexivity|assumption]|].
  split; [lia|].
  assert (Hmono : 2 ^ (d - 53) <= 2 ^ (e - (ex + ey)))
    by (apply Z.pow_le_mono_r; lia).
  rewrite Pos2Z.inj_mul in Hu, Hl. lia.
Qed.

Lemma new_location_located (D q r : Z) :
  0 < D -> 0 <= q -> 0 <= r < D ->
  located (D * q + r) D (shr_record_of_loc q (new_location D r)).
Proof.
  intros HD Hq Hr. unfold new_location, new_location_even, new_location_odd.
  destruct (Z.even D) eqn:Ev.
  - destruct (Z.eqb_spec r 0) as [->|Hr0].
    + unfold located; cbn. lia.
    + destruct (Z.compare_spec (2 * r) D); unfold located; cbn; lia.
  - destruct (Z.eqb_spec r 0) as [->|Hr0].
    + unfold located; cbn. lia.
    + assert (Hodd : D <> 2 * r).
      { intros ->. rewrite Z.even_mul in Ev. discriminate. }
      destruct (Z.compare_spec (2 * r + 1) D); unfold located; cbn; lia.
Qed.

Lemma SFdiv_correct (mx my : positive) (ex ey : Z) :
  2 ^ 52 <= Zpos mx < 2 ^ 53 -> 2 ^ 52 <= Zpos my < 2 ^ 53 ->
  -1074 <= ex - ey - 53 -> ex - ey - 51 <= 971 ->
  exists m e,
    normal (SFdiv PyFloat.prec PyFloat.emax
                  (S754_finite false mx ex) (S754_finite false my ey)) m e /\
    0 <= e - (ex - ey - 53) <= 2 /\
    2 * (Zpos m * 2 ^ (e - (ex - ey - 53)) * Zpos my - Zpos mx * 2 ^ 53)
    <= 2 ^ (e - (ex - ey - 53)) * Zpos my /\
    2 * (Zpos mx * 2 ^ 53 - Zpos m * 2 ^ (e - (ex - ey - 53)) * Zpos my)
    <= 2 ^ (e - (ex - ey - 53)) * Zpos my.
Proof.
  intros Hx Hy Hlo Hhi. cbn [SFdiv xorb]. unfold SFdiv_core_binary.
  rewrite (Zdigits2_unique (Zpos mx) 53), (Zdigits2_unique (Zpos my) 53)
    by (auto; lia).
  replace (53 + ex - (53 + ey)) with (ex - ey) by lia.
  rewrite fexp_normal by lia.
  rewrite Z.min_l by lia.
  replace (ex - ey - (ex - ey - 53)) with 53 by lia.
  rewrite Z.shiftl_mul_pow2 by lia.
  pose proof (Z_div_mod (Zpos mx * 2 ^ 53) (Zpos my) ltac:(lia)) as Hdm.
  destruct (Z.div_eucl (Zpos mx * 2 ^ 53) (Zpos my)) as [q r].
  destruct Hdm as [Heq Hr].
  rewrite pow2_52, pow2_53 in Hx, Hy.
  assert (Hq : 2 ^ 52 <= q < 2 ^ 54).
  { rewrite pow2_52. change (2 ^ 54) with 18014398509481984.
    rewrite pow2_53 in Heq. split.
    - destruct (Z.le_gt_cases 4503599627370496 q) as [|Hlt]; [assumption|exfalso].
      pose proof (Z.mul_le_mono_nonneg_l (q + 1) 4503599627370496 (Zpos my)
                    ltac:(lia) ltac:(lia)). lia.
    - destruct (Z.lt_ge_cases q 18014398509481984) as [|Hge]; [assumption|exfalso].
      pose proof (Z.mul_le_mono_nonneg_l 18014398509481984 q (Zpos my)
                    ltac:(lia) Hge). lia. }
  assert (Hd : exists d, 53 <= d <= 54 /\ 2 ^ (d - 1) <= q < 2 ^ d).
  { destruct (Z.lt_ge_cases q (2 ^ 53)).
    - exists 53. split; [lia|]. change (53 - 1) with 52. lia.
    - exists 54. split; [lia|]. change (54 - 1) with 53. lia. }
  destruct Hd as (d & Hd & Hb).
  destruct (binary_round_aux_correct q (ex - ey - 53) (new_location (Zpos my) r)
              (Zpos mx * 2 ^ 53) (Zpos my) d)
    as (m & e & Hres & Hm & He & Hu & Hl); try lia.
  { rewrite Heq. apply new_location_located; lia. }
  exists m, e. rewrite Hres. split; [split; [reflexivity|assumption]|].
  split; [lia|].
  assert (Hmono : 2 ^ (d - 53) <= 2 ^ (e - (ex - ey - 53)))
    by (apply Z.pow_le_mono_r; lia).
  pose proof (Z.mul_le_mono_nonneg_r _ _ (Zpos my) ltac:(lia) Hmono).
  split; lia.
Qed.

(** ** The operations of step 4 *)

Lemma pow2_pos (k : Z) : 0 <= k -> 0 < 2 ^ k.
Proof. intros. apply Z.pow_pos_nonneg; lia. Qed.

(** [max_area / x]: the nearest binary64 number to 744 / x. *)
Lemma truediv_max_area (x : Z) :
  1 <= x < 2 ^ 53 ->
  exists m e,
    PyFloat.truediv max_area x = Return (S754_finite false m e) /\
    2 ^ 52 <= Zpos m < 2 ^ 53 /\
    -96 <= e <= -42 /\
    2 * (Zpos m * x - max_area * 2 ^ (- e)) <= x /\
    2 * (max_area * 2 ^ (- e) - Zpos m * x) <= x.
Proof.
  intros Hx. unfold PyFloat.truediv.
  destruct (Z.eqb_spec x 0) as [?|_]; [lia|].
  destruct (of_int_correct x Hx) as (mw & ew & [-> Hmw] & Hew & Hval).
  change (PyFloat.of_int max_area) with (S754_finite false 6544293208522752 (-43)).
  destruct (SFdiv_correct 6544293208522752 mw (-43) ew)
    as (m & e & [Hr Hm] & Hk & Hu & Hl); try lia.
  exists m, e. rewrite Hr. split; [reflexivity|]. split; [assumption|].
  split; [lia|].
  set (k := e - (-43 - ew - 53)) in *.
  assert (H96 : Zpos 6544293208522752 * 2 ^ 53
                = max_area * 2 ^ (- e) * (2 ^ k * 2 ^ (- ew))).
  { transitivity (max_area * 2 ^ 96); [reflexivity|].
    rewrite <- Z.mul_assoc, <- !pow2_split by lia. do 2 f_equal. lia. }
  rewrite H96, Hval in Hu, Hl.
  assert (HK : 0 < 2 ^ k * 2 ^ (- ew))
    by (apply Z.mul_pos_pos; apply pow2_pos; lia).
  set (KW := 2 ^ k * 2 ^ (- ew)) in *.
  replace (Zpos m * 2 ^ k * (x * 2 ^ (- ew))) with (KW * (Zpos m * x))
    in Hu, Hl by (unfold KW; ring).
  replace (2 ^ k * (x * 2 ^ (- ew))) with (KW * x) in Hu, Hl by (unfold KW; ring).
  split; apply (Z.mul_le_mono_pos_l _ _ KW HK); lia.
Qed.

(** [x * s] for an int [x] and a normal float [s]. *)
Lemma mul_int_correct (x : Z) (ms : positive) (es : Z) :
  1 <= x < 2 ^ 53 -> 2 ^ 52 <= Zpos ms < 2 ^ 53 -> -96 <= es <= -42 ->
  exists m e,
    PyFloat.mul_int x (S754_finite false ms es) = S754_finite false m e /\
    2 ^ 52 <= Zpos m < 2 ^ 53 /\
    0 <= e - es <= 54 /\
    2 * (Zpos m * 2 ^ (e - es) - x * Zpos ms) <= 2 ^ (e - es) /\
    2 * (x * Zpos ms - Zpos m * 2 ^ (e - es)) <= 2 ^ (e - es).
Proof.
  intros Hx Hms Hes. unfold PyFloat.mul_int.
  destruct (of_int_correct x Hx) as (mw & ew & [-> Hmw] & Hew & Hval).
  destruct (SFmul_correct mw ms ew es) as (m & e & [Hr Hm] & Hk & Hu & Hl);
    try lia.
  exists m, e. rewrite Hr. split; [reflexivity|]. split; [assumption|].
  split; [lia|].
  assert (Hsplit : 2 ^ (e - (ew + es)) = 2 ^ (- ew) * 2 ^ (e - es)).
  { rewrite <- pow2_split by lia. f_equal. lia. }
  rewrite Hsplit, Hval in Hu, Hl.
  assert (HW : 0 < 2 ^ (- ew)) by (apply pow2_pos; lia).
  set (W := 2 ^ (- ew)) in *. set (J := 2 ^ (e - es)) in *.
  split; apply (Z.mul_le_mono_pos_l _ _ W HW); lia.
Qed.

(** [int(x)] on a positive float below 2^53. *)
Lemma int_correct (m : positive) (e : Z) :
  e <= 0 ->
  PyFloat.int (S754_finite false m e) = Return (Zpos m / 2 ^ (- e)).
Proof.
  intros He. unfold PyFloat.int. destruct e as [|p|p]; try lia.
  - simpl. rewrite Z.div_1_r. reflexivity.
  - rewrite Z.shiftr_div_pow2 by lia. reflexivity.
Qed.

(** [<] on normal floats is the order of their values. *)
Lemma SFltb_normal (m1 m2 : positive) (e1 e2 : Z) :
  2 ^ 52 <= Zpos m1 < 2 ^ 53 -> 2 ^ 52 <= Zpos m2 < 2 ^ 53 ->
  e1 <= 0 -> e2 <= 0 ->
  if SFltb (S754_finite false m1 e1) (S754_finite false m2 e2)
  then Zpos m1 * 2 ^ (- e2) < Zpos m2 * 2 ^ (- e1)
  else Zpos m2 * 2 ^ (- e1) <= Zpos m1 * 2 ^ (- e2).
Proof.
  intros H1 H2 He1 He2. rewrite pow2_52, pow2_53 in H1, H2.
  unfold SFltb, SFcompare.
  destruct (Z.compare_spec e1 e2) as [->|Hlt|Hgt].
  - change (Pos.compare_cont Eq m1 m2) with (Pos.compare m1 m2).
    assert (0 < 2 ^ (- e2)) by (apply pow2_pos; lia).
    destruct (Pos.compare_spec m1 m2) as [->|Hm|Hm].
    + lia.
    + apply Z.mul_lt_mono_pos_r; lia.
    + apply Z.mul_le_mono_nonneg_r; lia.
  - (* the first is in a lower binade *)
    assert (Hs : 2 ^ (- e1) = 2 ^ (e2 - e1) * 2 ^ (- e2)).
    { rewrite <- pow2_split by lia. f_equal. lia. }
    assert (HE : 0 < 2 ^ (- e2)) by (apply pow2_pos; lia).
    assert (HK : 2 ^ 1 <= 2 ^ (e2 - e1)) by (apply Z.pow_le_mono_r; lia).
    rewrite Z.pow_1_r in HK. rewrite Hs.
    set (E := 2 ^ (- e2)) in *. set (K := 2 ^ (e2 - e1)) in *.
    assert (A : Zpos m1 * E < 9007199254740992 * E)
      by (apply Z.mul_lt_mono_pos_r; lia).
    pose proof (Z.mul_le_mono_nonneg_r 2 K (Zpos m2 * E) ltac:(lia) HK) as B.
    pose proof (Z.mul_le_mono_nonneg_r 4503599627370496 (Zpos m2) E
                  ltac:(lia) ltac:(lia)) as C.
    lia.
  - (* the second is in a lower binade *)
    assert (Hs : 2 ^ (- e2) = 2 ^ (e1 - e2) * 2 ^ (- e1)).
    { rewrite <- pow2_split by lia. f_equal. lia. }
    assert (HE : 0 < 2 ^ (- e1)) by (apply pow2_pos; lia).
    assert (HK : 2 ^ 1 <= 2 ^ (e1 - e2)) by (apply Z.pow_le_mono_r; lia).
    rewrite Z.pow_1_r in HK. rewrite Hs.
    set (E := 2 ^ (- e1)) in *. set (K := 2 ^ (e1 - e2)) in *.
    assert (A : Zpos m2 * E < 9007199254740992 * E)
      by (apply Z.mul_lt_mono_pos_r; lia).
    pose proof (Z.mul_le_mono_nonneg_r 2 K (Zpos m1 * E) ltac:(lia) HK) as B.
    pose proof (Z.mul_le_mono_nonneg_r 4503599627370496 (Zpos m1) E
                  ltac:(lia) ltac:(lia)) as C.
    lia.
Qed.

(** ** The scale and the scaled dimensions *)

Lemma truediv_approx (x : Z) :
  1 <= x < 2 ^ 53 ->
  exists m e,
    PyFloat.truediv max_area x = Return (S754_finite false m e) /\
    2 ^ 52 <= Zpos m < 2 ^ 53 /\ -96 <= e <= -42 /\
    approx_upper m e x /\ approx_lower m e x.
Proof.
  intros Hx. destruct (truediv_max_area x Hx) as (m & e & Hr & Hm & He & Hu & Hl).
  exists m, e. split_and!; try assumption; try lia.
  - unfold approx_upper.
    pose proof (Z.mul_le_mono_nonneg_r _ _ x ltac:(lia) (proj1 Hm)). lia.
  - unfold approx_lower.
    pose proof (Z.mul_le_mono_nonneg_r _ _ x ltac:(lia) (proj1 Hm)). lia.
Qed.

(** A smaller float inherits the upper bound of a larger one. *)
Lemma approx_upper_le (ma mb : positive) (ea eb x : Z) :
  0 <= x -> ea <= 0 -> eb <= 0 ->
  Zpos ma * 2 ^ (- eb) <= Zpos mb * 2 ^ (- ea) ->
  approx_upper mb eb x -> approx_upper ma ea x.
Proof.
  unfold approx_upper. intros Hx Hea Heb Hle Hub.
  assert (HEa : 0 < 2 ^ (- ea)) by (apply pow2_pos; lia).
  assert (HEb : 0 < 2 ^ (- eb)) by (apply pow2_pos; lia).
  set (Ea := 2 ^ (- ea)) in *. set (Eb := 2 ^ (- eb)) in *.
  apply (Z.mul_le_mono_pos_l _ _ Eb HEb).
  pose proof (Z.mul_le_mono_nonneg_r _ _ (x * (2 ^ 53 - 1)) ltac:(lia) Hle) as H1.
  pose proof (Z.mul_le_mono_nonneg_r _ _ Ea ltac:(lia) Hub) as H2.
  lia.
Qed.

Lemma approx_upper_mono (m : positive) (e x y : Z) :
  x <= y -> approx_upper m e y -> approx_upper m e x.
Proof.
  unfold approx_upper. intros Hxy H.
  pose proof (Z.mul_le_mono_nonneg_l _ _ (Zpos m * (2 ^ 53 - 1)) ltac:(lia) Hxy).
  lia.
Qed.

Lemma approx_lower_mono (m : positive) (e x y : Z) :
  x <= y -> approx_lower m e x -> approx_lower m e y.
Proof.
  unfold approx_lower. intros Hxy H.
  pose proof (Z.mul_le_mono_nonneg_l _ _ (Zpos m * (2 ^ 53 + 1)) ltac:(lia) Hxy).
  lia.
Qed.

(** [scale] is the float nearest to 744 / w or to 744 / h, and it
    approximates 744 / max(w, h). *)
Lemma scale_correct (w h : Z) :
  1 <= w < 2 ^ 53 -> 1 <= h < 2 ^ 53 ->
  exists a b ms es,
    PyFloat.truediv max_area w = Return a /\
    PyFloat.truediv max_area h = Return b /\
    scale w h = Return (PyFloat.min a b) /\
    PyFloat.min a b = S754_finite false ms es /\
    2 ^ 52 <= Zpos ms < 2 ^ 53 /\ -96 <= es <= -42 /\
    approx_upper ms es (Z.max w h) /\ approx_lower ms es (Z.max w h).
Proof.
  intros Hw Hh.
  destruct (truediv_approx w Hw) as (ma & ea & Ha & Hma & Hea & Uaw & Law).
  destruct (truediv_approx h Hh) as (mb & eb & Hb & Hmb & Heb & Ubh & Lbh).
  exists (S754_finite false ma ea), (S754_finite false mb eb).
  unfold scale. rewrite Ha, Hb. cbn [mbind result_bind mret result_ret].
  pose proof (SFltb_normal mb ma eb ea Hmb Hma ltac:(lia) ltac:(lia)) as Hcmp.
  unfold PyFloat.min.
  destruct (SFltb (S754_finite false mb eb) (S754_finite false ma ea)).
  - exists mb, eb. split_and!; try reflexivity; try assumption; try lia.
    + assert (Ubw : approx_upper mb eb w)
        by (apply (approx_upper_le mb ma eb ea); try lia; assumption).
      destruct (Z.max_spec w h) as [[_ ->]|[_ ->]]; assumption.
    + apply (approx_lower_mono mb eb h); [lia | assumption].
  - exists ma, ea. split_and!; try reflexivity; try assumption; try lia.
    + assert (Uah : approx_upper ma ea h)
        by (apply (approx_upper_le ma mb ea eb); try lia; assumption).
      destruct (Z.max_spec w h) as [[_ ->]|[_ ->]]; assumption.
    + apply (approx_lower_mono ma ea w); [lia | assumption].
Qed.

(** [int(x * scale)] is the exact proportional size 744 * x / M, rounded
    down, or one less when the float product falls just short of an
    integer. *)
Lemma scaled_dim_correct (x M : Z) (ms : positive) (es : Z) :
  1 <= x <= M -> M < 2 ^ 31 ->
  2 ^ 52 <= Zpos ms < 2 ^ 53 -> -96 <= es <= -42 ->
  approx_upper ms es M -> approx_lower ms es M ->
  exists n,
    PyFloat.int (PyFloat.mul_int x (S754_finite false ms es)) = Return n /\
    M * n <= max_area * x <= M * (n + 1).
Proof.
  intros Hx HM Hms Hes UM LM.
  assert (Ux : approx_upper ms es x) by (apply (approx_upper_mono ms es x M); [lia|assumption]).
  destruct (mul_int_correct x ms es ltac:(lia) Hms Hes)
    as (mp & ep & -> & Hmp & Hj & P1 & P2).
  unfold approx_upper, approx_lower, max_area, icon_size, padding in *.
  assert (HEs : 0 < 2 ^ (- es)) by (apply pow2_pos; lia).
  assert (HJ : 0 < 2 ^ (ep - es)) by (apply pow2_pos; lia).
  set (Es := 2 ^ (- es)) in *. set (J := 2 ^ (ep - es)) in *.
  set (T := Zpos mp * J) in *. set (V := x * Zpos ms) in *.
  assert (HT : 2 ^ 52 * J <= T)
    by (apply Z.mul_le_mono_nonneg_r; lia).
  assert (RU : T * (2 ^ 53 - 1) <= V * 2 ^ 53) by lia.
  assert (RL : V * 2 ^ 53 <= T * (2 ^ 53 + 1)) by lia.
  assert (UV : V * (2 ^ 53 - 1) <= 744 * 2 ^ 53 * Es)
    by (unfold V; replace (x * Zpos ms) with (Zpos ms * x) by ring; exact Ux).
  (* the product is below 2^53, so its exponent is not positive *)
  assert (Hep : ep <= 0).
  { destruct (Z.le_gt_cases ep 0) as [|Hpos]; [assumption|exfalso].
    assert (HJE : 2 * Es <= J).
    { unfold J, Es. replace (ep - es) with (ep + - es) by lia.
      rewrite pow2_split by lia.
      assert (2 ^ 1 <= 2 ^ ep) by (apply Z.pow_le_mono_r; lia).
      rewrite Z.pow_1_r in *. apply Z.mul_le_mono_nonneg_r; lia. }
    lia. }
  rewrite int_correct by assumption.
  assert (HEp : 0 < 2 ^ (- ep)) by (apply pow2_pos; lia).
  set (Ep := 2 ^ (- ep)) in *.
  assert (HEsEp : Es = Ep * J).
  { unfold Es, Ep, J. rewrite <- pow2_split by lia. f_equal. lia. }
  set (n := Zpos mp / Ep).
  assert (Hn1 : n * Ep <= Zpos mp).
  { unfold n. rewrite Z.mul_comm. apply Z.mul_div_le. assumption. }
  assert (Hn2 : Zpos mp < (n + 1) * Ep).
  { unfold n. rewrite Z.mul_comm. apply Z.mul_succ_div_gt. assumption. }
  assert (Hn0 : 0 <= n) by (apply Z.div_pos; lia).
  exists n. split; [reflexivity|]. split.
  - (* M * n <= 744 * x *)
    assert (A1 : n * Es <= T).
    { unfold T. rewrite HEsEp, Z.mul_assoc. apply Z.mul_le_mono_nonneg_r; lia. }
    assert (A2 : n * Es * (2 ^ 53 - 1) <= V * 2 ^ 53) by lia.
    pose proof (Z.mul_le_mono_nonneg_r _ _ M ltac:(lia) A2) as A3.
    pose proof (Z.mul_le_mono_nonneg_r _ _ x ltac:(lia) UM) as A4.
    assert (A5 : Es * (n * M * ((2 ^ 53 - 1) * (2 ^ 53 - 1)))
                 <= Es * (744 * x * (2 ^ 53 * 2 ^ 53))).
    { unfold V in A3. lia. }
    apply (Z.mul_le_mono_pos_l _ _ Es HEs) in A5.
    rewrite pow2_53 in A5. lia.
  - (* 744 * x <= M * (n + 1) *)
    assert (B1 : T + 1 <= (n + 1) * Es).
    { unfold T. rewrite HEsEp, Z.mul_assoc.
      assert (Zpos mp * J < (n + 1) * Ep * J)
        by (apply Z.mul_lt_mono_pos_r; lia). lia. }
    assert (B2 : V * 2 ^ 53 + (2 ^ 53 + 1) <= (n + 1) * Es * (2 ^ 53 + 1)) by lia.
    pose proof (Z.mul_le_mono_nonneg_r _ _ M ltac:(lia) B2) as B3.
    pose proof (Z.mul_le_mono_nonneg_r _ _ x ltac:(lia) LM) as B4.
    assert (B5 : Es * (744 * x * (2 ^ 53 * 2 ^ 53))
                 <= Es * ((n + 1) * M * ((2 ^ 53 + 1) * (2 ^ 53 + 1)))).
    { unfold V in B3. lia. }
    apply (Z.mul_le_mono_pos_l _ _ Es HEs) in B5.
    rewrite pow2_53 in B5. change (2 ^ 31) with 2147483648 in HM. lia.
Qed.

(* ===================================================================== *)
(** * Running the script, step by step *)
(* ===================================================================== *)

Lemma record_call_calls c cs w :
  record_call c (record_calls cs w) = record_calls (cs ++ [c]) w.
Proof. unfold record_call, record_calls; simpl. now rewrite app_assoc. Qed.

Lemma record_call_one c w : record_call c w = record_calls [c] w.
Proof. reflexivity. Qed.

Lemma record_calls_calls cs cs' w :
  record_calls cs' (record_calls cs w) = record_calls (cs ++ cs') w.
Proof. unfold record_calls; simpl. now rewrite app_assoc. Qed.

(** Two worlds built from the same calls are equal up to the bracketing of
    the trace. *)
Ltac same_world :=
  unfold set_fs, record_call, record_calls; cbn [fs trace];
  rewrite <- ?app_assoc; reflexivity.

Lemma crop_to_content_run (car_img : image rgba) (w : world) :
  crop_to_content car_img w =
  (Return (content car_img), record_calls (crop_calls car_img) w).
Proof.
  unfold crop_to_content, content, crop_calls, mbind, M_bind, traced, say, traced.
  destruct (Image.getbbox car_img) as [box|]; [|reflexivity].
  rewrite !record_call_one, !record_calls_calls. reflexivity.
Qed.

Section Compose.
Variable LANCZOS : image rgba -> Z * Z -> Z * Z -> rgba.

(** Steps 3 to 6 and the clean-up, case by case. *)
Lemma compose_icon_run (car_img : image rgba) (w : world) :
  compose_icon LANCZOS car_img w =
  match scaled_size (size car_img) with
  | Raise e => (Raise e, record_calls [Image_new (icon_size, icon_size)] w)
  | Return sz =>
      match Image.resize LANCZOS car_img sz with
      | Raise e =>
          (Raise e,
           record_calls [Image_new (icon_size, icon_size); Image_resize sz] w)
      | Return resized =>
          let icon_rgb := flattened resized sz in
          let saved := <[icon_png := Png (RGB_image icon_rgb)]> (fs w) in
          match fs w !! car_temp_png with
          | None =>
              (Raise (FileNotFoundError car_temp_png),
               set_fs saved
                 (record_calls (firstn 9 (compose_calls (size resized))) w))
          | Some _ =>
              (Return tt,
               set_fs (delete car_temp_png saved)
                      (record_calls (compose_calls (size resized)) w))
          end
      end
  end.
Proof.
  unfold compose_icon, scaled_size.
  destruct (size car_img) as [car_w car_h].
  unfold mbind, mret, M_bind, M_ret, result_bind, result_ret, traced, lift, say,
    traced, ImageIO.save, os.remove.
  destruct (scale car_w car_h) as [e|s]; [reflexivity|].
  destruct (new_w car_w s) as [e|nw]; [reflexivity|].
  destruct (new_h car_h s) as [e|nh]; [reflexivity|].
  destruct (Image.resize LANCZOS car_img (nw, nh)) as [e|resized] eqn:Er.
  { rewrite !record_call_one, !record_calls_calls. reflexivity. }
  assert (Hsz : size resized = (nw, nh)).
  { unfold Image.resize in Er. destruct (_ || _); inversion Er; reflexivity. }
  rewrite Hsz.
  cbn [fs record_call set_fs].
  rewrite lookup_insert_ne by discriminate.
  destruct (fs w !! car_temp_png) as [f|];
    unfold set_fs, record_call, record_calls, compose_calls, flattened;
    cbn [fs trace fst snd firstn]; rewrite <- !app_assoc; reflexivity.
Qed.
End Compose.

Section Run.
Variable PATH : string -> option program.
Variable LANCZOS : image rgba -> Z * Z -> Z * Z -> rgba.

(** Steps 1 and 2, case by case; the rest is [compose_icon]. *)
Lemma generate_icon_run (w : world) :
  generate_icon PATH LANCZOS w =
  match PATH rsvg_convert with
  | None => (Raise (FileNotFoundError rsvg_convert), record_calls [rasterizer_call] w)
  | Some prog =>
      let returncode := fst (prog rsvg_args (fs w)) in
      let m := snd (prog rsvg_args (fs w)) in
      if returncode =? 0 then
        match m !! car_temp_png with
        | None =>
            (Raise (FileNotFoundError car_temp_png),
             set_fs m (record_calls [rasterizer_call; Image_open car_temp_png] w))
        | Some (Svg _) =>
            (Raise (UnidentifiedImageError car_temp_png),
             set_fs m (record_calls [rasterizer_call; Image_open car_temp_png] w))
        | Some (Png im) =>
            compose_icon LANCZOS (content (as_rgba im))
              (set_fs m
                 (record_calls ([rasterizer_call; Image_open car_temp_png;
                                 Image_convert "RGBA"]
                                ++ crop_calls (as_rgba im)) w))
        end
      else (Raise (CalledProcessError returncode),
            set_fs m (record_calls [rasterizer_call] w))
  end.
Proof.
  unfold generate_icon, subprocess.run, mbind, M_bind.
  destruct (PATH rsvg_convert) as [prog|]; [|reflexivity].
  cbn [fs record_call]. destruct (prog rsvg_args (fs w)) as [code m].
  cbn [fst snd]. destruct (code =? 0); [|reflexivity].
  unfold ImageIO.open. cbn [fs record_call set_fs].
  destruct (m !! car_temp_png) as [[xml|im]|].
  - f_equal. same_world.
  - unfold ImageIO.convert_RGBA, traced. rewrite crop_to_content_run.
    f_equal. same_world.
  - f_equal. same_world.
Qed.

End Run.

(** A run is known to return as soon as its outcome is. *)
Lemma run_returns {A} (m : M A) (w : world) (a : A) :
  fst (m w) = Return a -> m w = (Return a, snd (m w)).
Proof. destruct (m w) as [r w']; simpl; intros ->; reflexivity. Qed.

Lemma run_raises {A} (m : M A) (w : world) (e : exn) :
  fst (m w) = Raise e -> m w = (Raise e, snd (m w)).
Proof. destruct (m w) as [r w']; simpl; intros ->; reflexivity. Qed.

(* ===================================================================== *)
(** * Step 2: the bounding box *)
(* ===================================================================== *)

Lemma transparent_getbbox (im : image rgba) :
  (forall x y, inside im x y -> alpha (getpixel im (x, y)) = 0) ->
  Image.getbbox im = None.
Proof.
  intros Hz. pose proof (getbbox_scan im) as H.
  destruct (Image.getbbox im) as [[[[x0 y0] x1] y1]|]; [|reflexivity].
  destruct H as (_ & _ & _ & (x & Hx & Hy & Hn) & _).
  exfalso. apply Hn. apply Hz. split; auto.
Qed.

Lemma visible_nonzero (im : image rgba) (x y : Z) :
  valid_image im -> inside im x y ->
  (nonzero im x y <-> 0 < alpha (getpixel im (x, y))).
Proof.
  intros Hv Hin. specialize (Hv x y Hin). unfold nonzero.
  destruct (getpixel im (x, y)) as [[[r g] b] a]. simpl in *.
  unfold band in Hv. lia.
Qed.

(** C2: on a raster with at least one pixel of alpha > 0, the bounding box
    computed before cropping is the smallest rectangle enclosing all such
    pixels: it contains every one of them, each of its four border lines
    holds one (so no fully transparent border row or column is kept), and
    any rectangle that contains them all contains the box. *)
Theorem getbbox_is_tight (im : image rgba) :
  valid_image im ->
  (exists x y, visible im x y) ->
  exists x0 y0 x1 y1,
    Image.getbbox im = Some (x0, y0, x1, y1) /\
    (forall x y, visible im x y -> x0 <= x < x1 /\ y0 <= y < y1) /\
    (exists y, visible im x0 y) /\
    (exists y, visible im (x1 - 1) y) /\
    (exists x, visible im x y0) /\
    (exists x, visible im x (y1 - 1)) /\
    (forall a0 b0 a1 b1,
        (forall x y, visible im x y -> a0 <= x < a1 /\ b0 <= y < b1) ->
        a0 <= x0 /\ b0 <= y0 /\ x1 <= a1 /\ y1 <= b1).
Proof.
  intros Hv (xv & yv & Hin & Hpos).
  pose proof (getbbox_scan im) as H.
  destruct (Image.getbbox im) as [[[[x0 y0] x1] y1]|].
  - destruct H as (Hall & (ya & Ha1 & Ha2 & Ha3) & (yb & Hb1 & Hb2 & Hb3)
                   & (xc & Hc1 & Hc2 & Hc3) & (xd & Hd1 & Hd2 & Hd3)).
    assert (Va : visible im x0 ya)
      by (split; [split; auto | apply visible_nonzero; auto; split; auto]).
    assert (Vb : visible im (x1 - 1) yb)
      by (split; [split; auto | apply visible_nonzero; auto; split; auto]).
    assert (Vc : visible im xc y0)
      by (split; [split; auto | apply visible_nonzero; auto; split; auto]).
    assert (Vd : visible im xd (y1 - 1))
      by (split; [split; auto | apply visible_nonzero; auto; split; auto]).
    exists x0, y0, x1, y1. split_and!; eauto.
    + intros x y [Hi Hp]. apply Hall; try apply Hi.
      apply visible_nonzero; auto.
    + intros a0 b0 a1 b1 Hbox.
      pose proof (Hbox _ _ Va). pose proof (Hbox _ _ Vb).
      pose proof (Hbox _ _ Vc). pose proof (Hbox _ _ Vd). lia.
  - exfalso. destruct Hin as [Hx Hy]. apply (H xv yv Hx Hy).
    unfold nonzero. lia.
Qed.

Lemma block_raster_valid sz box : valid_image (block_raster sz box).
Proof.
  destruct box as [[[x0 y0] x1] y1]. intros x y _. simpl.
  destruct (_ && _); simpl; unfold band; lia.
Qed.

Lemma getbbox_is_tight_witness :
  exists x0 y0 x1 y1,
    Image.getbbox (block_raster (8, 6) (2, 1, 5, 4)) = Some (x0, y0, x1, y1) /\
    (forall x y, visible (block_raster (8, 6) (2, 1, 5, 4)) x y ->
                 x0 <= x < x1 /\ y0 <= y < y1) /\
    (exists y, visible (block_raster (8, 6) (2, 1, 5, 4)) x0 y) /\
    (exists y, visible (block_raster (8, 6) (2, 1, 5, 4)) (x1 - 1) y) /\
    (exists x, visible (block_raster (8, 6) (2, 1, 5, 4)) x y0) /\
    (exists x, visible (block_raster (8, 6) (2, 1, 5, 4)) x (y1 - 1)) /\
    (forall a0 b0 a1 b1,
        (forall x y, visible (block_raster (8, 6) (2, 1, 5, 4)) x y ->
                     a0 <= x < a1 /\ b0 <= y < b1) ->
        a0 <= x0 /\ b0 <= y0 /\ x1 <= a1 /\ y1 <= b1).
Proof.
  apply (getbbox_is_tight (block_raster (8, 6) (2, 1, 5, 4))).
  - apply block_raster_valid.
  - exists 2, 1. unfold visible, inside. vm_compute. intuition discriminate.
Defined.

(** C7: on a fully transparent raster the bounding-box computation yields
    no box, the crop is skipped without an error, and the script goes on to
    scale and composite the uncropped raster. *)
Theorem transparent_raster_is_used_uncropped (im : image rgba) :
  (forall x y, inside im x y -> alpha (getpixel im (x, y)) = 0) ->
  Image.getbbox im = None /\
  (forall w, crop_to_content im w = (Return im, record_calls [Image_getbbox] w)) /\
  (forall PATH LANCZOS w prog m,
      PATH rsvg_convert = Some prog ->
      prog rsvg_args (fs w) = (0, m) ->
      m !! car_temp_png = Some (Png (RGBA_image im)) ->
      generate_icon PATH LANCZOS w =
      compose_icon LANCZOS im
        (set_fs m
           (record_calls [rasterizer_call;
                          Image_open car_temp_png; Image_convert "RGBA";
                          Image_getbbox] w))).
Proof.
  intros Hz. pose proof (transparent_getbbox im Hz) as Hb.
  split_and!; auto.
  - intros w. rewrite crop_to_content_run. unfold content, crop_calls.
    rewrite Hb. reflexivity.
  - intros PATH K w prog m HP Hrun Hm.
    rewrite generate_icon_run, HP, Hrun. cbn [fst snd Z.eqb]. rewrite Hm.
    unfold content, crop_calls, as_rgba. rewrite Hb. reflexivity.
Qed.

Lemma transparent_raster_is_used_uncropped_witness :
  Image.getbbox (Image.new (4, 4) (0, 0, 0, 0)) = None /\
  generate_icon (only_rsvg (writes (Png (RGBA_image (Image.new (4, 4) (0, 0, 0, 0)))) 0))
                nearest fresh_checkout =
  compose_icon nearest (Image.new (4, 4) (0, 0, 0, 0))
    (set_fs (<[car_temp_png := Png (RGBA_image (Image.new (4, 4) (0, 0, 0, 0)))]>
               (fs fresh_checkout))
       (record_calls [rasterizer_call;
                      Image_open car_temp_png; Image_convert "RGBA";
                      Image_getbbox] fresh_checkout)).
Proof.
  destruct (transparent_raster_is_used_uncropped (Image.new (4, 4) (0, 0, 0, 0)))
    as (Hb & _ & Hrun).
  - intros x y _. reflexivity.
  - split; [exact Hb|].
    apply (Hrun _ nearest fresh_checkout
                (writes (Png (RGBA_image (Image.new (4, 4) (0, 0, 0, 0)))) 0)).
    + reflexivity.
    + reflexivity.
    + vm_compute. reflexivity.
Defined.

(* ===================================================================== *)
(** * Step 5: centring *)
(* ===================================================================== *)

(** C3: for every scaled dimension [d] the offset is
    (icon_size - d) / 2 by floor division, which is truncation whenever the
    content is not larger than the canvas; the margin left on the far side,
    icon_size - offset - d, exceeds the offset by 0 or 1, and by 1 exactly
    when icon_size - d is odd.  Both axes compute the same function. *)
Theorem offset_centres_within_one_pixel (d : Z) :
  offset_x d = (icon_size - d) / 2 /\
  offset_y d = offset_x d /\
  (d <= icon_size -> offset_x d = (icon_size - d) ÷ 2) /\
  0 <= (icon_size - offset_x d - d) - offset_x d <= 1 /\
  ((icon_size - offset_x d - d) - offset_x d = 1 <->
   Z.odd (icon_size - d) = true).
Proof.
  unfold offset_x, offset_y, icon_size.
  split; [reflexivity|]. split; [reflexivity|].
  split.
  - intros Hd. symmetry. apply Z.quot_div_nonneg; lia.
  - pose proof (Zdiv2_odd_eqn (1024 - d)) as Hodd.
    rewrite Z.div2_div in Hodd.
    destruct (Z.odd (1024 - d)); split; try lia; split; intros; try lia.
Qed.

Lemma offset_centres_within_one_pixel_witness :
  offset_x 743 = 140 /\
  1024 - offset_x 743 - 743 = 141 /\
  offset_x 743 = (icon_size - 743) ÷ 2.
Proof.
  destruct (offset_centres_within_one_pixel 743) as (H1 & _ & H3 & _ & _).
  split; [rewrite H1; reflexivity|]. split; [rewrite H1; reflexivity|].
  apply H3. unfold icon_size. lia.
Defined.

(* ===================================================================== *)
(** * Step 1: the rasterizer *)
(* ===================================================================== *)

(** C6: when the rasterizer is not on the search path, or exits non-zero,
    the run stops there with that exception: the only call made is the one
    [subprocess.run] (no retry, no fallback, and no image is opened,
    cropped, scaled, composited or saved), and the filesystem is the one
    the rasterizer left. *)
Theorem rasterizer_failure_is_fatal
        (PATH : string -> option program)
        (LANCZOS : image rgba -> Z * Z -> Z * Z -> rgba) (w : world) :
  (PATH rsvg_convert = None ->
   generate_icon PATH LANCZOS w =
   (Raise (FileNotFoundError rsvg_convert),
    record_calls [rasterizer_call] w)) /\
  (forall prog returncode m,
      PATH rsvg_convert = Some prog ->
      prog rsvg_args (fs w) = (returncode, m) ->
      returncode <> 0 ->
      generate_icon PATH LANCZOS w =
      (Raise (CalledProcessError returncode),
       set_fs m (record_calls [rasterizer_call] w))).
Proof.
  split.
  - intros HP. rewrite generate_icon_run, HP. reflexivity.
  - intros prog code m HP Hrun Hcode.
    rewrite generate_icon_run, HP, Hrun. cbn [fst snd].
    apply Z.eqb_neq in Hcode. rewrite Hcode. reflexivity.
Qed.

Lemma rasterizer_failure_is_fatal_witness :
  generate_icon empty_PATH nearest fresh_checkout =
  (Raise (FileNotFoundError rsvg_convert),
   record_calls [rasterizer_call] fresh_checkout) /\
  generate_icon (only_rsvg (writes (Svg "") 1)) nearest fresh_checkout =
  (Raise (CalledProcessError 1),
   set_fs (<[car_temp_png := Svg ""]> (fs fresh_checkout))
     (record_calls [rasterizer_call] fresh_checkout)).
Proof.
  split.
  - apply (rasterizer_failure_is_fatal empty_PATH nearest fresh_checkout).
    reflexivity.
  - apply (rasterizer_failure_is_fatal (only_rsvg (writes (Svg "") 1)) nearest
             fresh_checkout) with (prog := writes (Svg "") 1).
    + reflexivity.
    + reflexivity.
    + lia.
Defined.

(* ===================================================================== *)
(** * The clean-up *)
(* ===================================================================== *)

(** C8: [os.remove] is reached on the success path only.  A run that
    raises makes no [os.remove] call and leaves the filesystem as step 1
    left it, so a temporary raster that was created stays on disk; a run
    that returns has saved the icon and after that removed the temporary
    raster. *)
Theorem temp_file_removed_only_on_success
        (PATH : string -> option program)
        (LANCZOS : image rgba -> Z * Z -> Z * Z -> rgba)
        (w w' : world) (r : result unit) :
  generate_icon PATH LANCZOS w = (r, w') ->
  exists calls,
    trace w' = trace w ++ calls /\
    match r with
    | Raise _ =>
        ~ In (os_remove car_temp_png) calls /\
        fs w' = rasterized PATH w
    | Return _ =>
        exists icon_rgb before,
          rasterized PATH w !! car_temp_png <> None /\
          fs w' = delete car_temp_png
                    (<[icon_png := Png (RGB_image icon_rgb)]> (rasterized PATH w)) /\
          fs w' !! car_temp_png = None /\
          calls = before ++ [Image_save icon_png;
                             print "Generated icon.png: " [icon_size; icon_size];
                             os_remove car_temp_png;
                             print "Done!" []] /\
          ~ In (os_remove car_temp_png) before
    end.
Proof.
  rewrite generate_icon_run. unfold rasterized.
  destruct (PATH rsvg_convert) as [prog|].
  2:{ intros H; inversion H; subst. eexists; split; [reflexivity|].
      split; [|reflexivity]. simpl. intuition discriminate. }
  destruct (prog rsvg_args (fs w)) as [code m]. cbn [fst snd].
  destruct (code =? 0).
  2:{ intros H; inversion H; subst. eexists; split; [reflexivity|].
      split; [|reflexivity]. simpl. intuition discriminate. }
  destruct (m !! car_temp_png) as [[xml|im]|] eqn:Hm.
  1,3: intros H; inversion H; subst; eexists; (split; [reflexivity|]);
    (split; [|reflexivity]); simpl; intuition discriminate.
  rewrite compose_icon_run.
  assert (Hcrop : ~ In (os_remove car_temp_png) (crop_calls (as_rgba im))).
  { unfold crop_calls. destruct (Image.getbbox _); simpl; intuition discriminate. }
  destruct (scaled_size _) as [e|sz].
  { intros H; inversion H; subst. cbn [trace set_fs record_calls fs].
    rewrite <- app_assoc. eexists; split; [reflexivity|]. split; [|reflexivity].
    rewrite !in_app_iff. simpl. intuition discriminate. }
  destruct (Image.resize _ _ _) as [e|resized] eqn:Er.
  { intros H; inversion H; subst. cbn [trace set_fs record_calls fs].
    rewrite <- app_assoc. eexists; split; [reflexivity|]. split; [|reflexivity].
    rewrite !in_app_iff. simpl. intuition discriminate. }
  cbn [fs set_fs record_calls]. rewrite Hm.
  intros H; inversion H; subst. cbn [trace set_fs record_calls fs].
  rewrite <- app_assoc. eexists; split; [reflexivity|].
  exists (flattened resized sz).
  exists ([rasterizer_call; Image_open car_temp_png;
           Image_convert "RGBA"] ++ crop_calls (as_rgba im)
          ++ firstn 6 (compose_calls (size resized))).
  split_and!.
  - congruence.
  - reflexivity.
  - apply lookup_delete_eq.
  - unfold compose_calls. cbn [firstn]. rewrite <- !app_assoc. reflexivity.
  - rewrite !in_app_iff. simpl. intuition discriminate.
Qed.

Lemma temp_file_removed_only_on_success_witness :
  exists calls,
    trace (snd (generate_icon
                  (only_rsvg (writes (Png (RGBA_image
                     (block_raster (800, 1) (0, 0, 800, 1)))) 0))
                  nearest fresh_checkout)) = trace fresh_checkout ++ calls /\
    ~ In (os_remove car_temp_png) calls /\
    fs (snd (generate_icon
               (only_rsvg (writes (Png (RGBA_image
                  (block_raster (800, 1) (0, 0, 800, 1)))) 0))
               nearest fresh_checkout)) =
    rasterized (only_rsvg (writes (Png (RGBA_image
                  (block_raster (800, 1) (0, 0, 800, 1)))) 0)) fresh_checkout.
Proof.
  apply (temp_file_removed_only_on_success
           (only_rsvg (writes (Png (RGBA_image
              (block_raster (800, 1) (0, 0, 800, 1)))) 0))
           nearest fresh_checkout _
           (Raise (ValueError "height and width must be > 0"))).
  apply run_raises. vm_compute. reflexivity.
Defined.

(* ===================================================================== *)
(** * Steps 3 to 6: the canvas *)
(* ===================================================================== *)

Lemma div255_exact (v : Z) : band v -> Image.div255 (v * 255) = v.
Proof.
  unfold band, Image.div255. intros Hv. cbv zeta.
  rewrite !Z.shiftr_div_pow2 by lia. change (2 ^ 8) with 256.
  assert (H1 : (v * 255 + 128) / 256 = if v <=? 128 then v else v - 1).
  { destruct (Z.leb_spec v 128); symmetry; apply Z.div_unique with
      (r := v * 255 + 128 - 256 * (if v <=? 128 then v else v - 1));
      destruct (Z.leb_spec v 128); lia. }
  rewrite H1. symmetry.
  destruct (Z.leb_spec v 128);
    [apply Z.div_unique with (r := 128) | apply Z.div_unique with (r := 127)]; lia.
Qed.

(** Where the mask is 255 the pasted pixel replaces the canvas pixel. *)
Lemma blend_opaque (dst src : Z) : band src -> Image.blend 255 dst src = src.
Proof.
  intros Hs. unfold Image.blend.
  replace (dst * (255 - 255) + src * 255) with (src * 255) by lia.
  apply div255_exact, Hs.
Qed.

Lemma blend_rgba_opaque (dst src : rgba) :
  valid_rgba src -> Image.blend_rgba 255 dst src = src.
Proof.
  destruct dst as [[[r1 g1] b1] a1], src as [[[r2 g2] b2] a2].
  intros (Hr & Hg & Hb & Ha). unfold Image.blend_rgba.
  rewrite !blend_opaque by assumption. reflexivity.
Qed.

(** The flattened canvas, pixel by pixel. *)
Lemma flattened_outside (resized : image rgba) (sz : Z * Z) (x y : Z) :
  size resized = sz ->
  ~ (offset_x (fst sz) <= x < offset_x (fst sz) + fst sz /\
     offset_y (snd sz) <= y < offset_y (snd sz) + snd sz) ->
  getpixel (flattened resized sz) (x, y) = (255, 255, 255).
Proof.
  intros Hsz Hout. unfold flattened, Image.convert_RGB, Image.paste. cbn [getpixel].
  replace (Image.in_box resized (offset_x (fst sz), offset_y (snd sz)) (x, y))
    with false; [reflexivity|].
  symmetry. unfold Image.in_box, width, height. rewrite Hsz.
  apply not_true_is_false. intros H.
  apply andb_prop in H as [H H4]. apply andb_prop in H as [H H3].
  apply andb_prop in H as [H1 H2]. lia.
Qed.

Lemma flattened_inside (resized : image rgba) (sz : Z * Z) (x y : Z) :
  size resized = sz ->
  offset_x (fst sz) <= x < offset_x (fst sz) + fst sz ->
  offset_y (snd sz) <= y < offset_y (snd sz) + snd sz ->
  let p := getpixel resized (x - offset_x (fst sz), y - offset_y (snd sz)) in
  getpixel (flattened resized sz) (x, y) =
  Image.drop_alpha (Image.blend_rgba (alpha p) white p).
Proof.
  intros Hsz Hx Hy. unfold flattened, Image.convert_RGB, Image.paste. cbn [getpixel].
  replace (Image.in_box resized (offset_x (fst sz), offset_y (snd sz)) (x, y))
    with true; [reflexivity|].
  symmetry. unfold Image.in_box, width, height. rewrite Hsz.
  rewrite !andb_true_iff. lia.
Qed.

Lemma resize_returns {P} (kernel : image P -> Z * Z -> Z * Z -> P)
      (im resized : image P) (sz : Z * Z) :
  Image.resize kernel im sz = Return resized ->
  size resized = sz /\ getpixel resized = kernel im sz /\
  1 <= fst sz /\ 1 <= snd sz.
Proof.
  unfold Image.resize. destruct (_ || _) eqn:E; intros H; inversion H; subst.
  apply orb_false_elim in E as [E1 E2]. cbn [size getpixel].
  split; [reflexivity|]. split; [reflexivity|]. lia.
Qed.

(** C5: whenever the script returns, the file it wrote is an RGB bitmap
    (three bands, no alpha) of the canvas size, and every pixel outside the
    rectangle [offset_x, offset_x + new_w) x [offset_y, offset_y + new_h)
    where the resized content was pasted is white (255, 255, 255). *)
Theorem output_is_rgb_and_white_outside_content
        (PATH : string -> option program)
        (LANCZOS : image rgba -> Z * Z -> Z * Z -> rgba)
        (w w' : world) :
  generate_icon PATH LANCZOS w = (Return tt, w') ->
  exists (icon_rgb : image rgb) (new_w new_h : Z) (before : list call),
    fs w' !! icon_png = Some (Png (RGB_image icon_rgb)) /\
    trace w' = trace w ++ before ++ compose_calls (new_w, new_h) /\
    mode icon_rgb = "RGB" /\
    size icon_rgb = (icon_size, icon_size) /\
    (forall xy, length (getbands (getpixel icon_rgb xy)) = 3%nat) /\
    (forall x y,
        ~ (offset_x new_w <= x < offset_x new_w + new_w /\
           offset_y new_h <= y < offset_y new_h + new_h) ->
        getpixel icon_rgb (x, y) = (255, 255, 255)).
Proof.
  rewrite generate_icon_run.
  destruct (PATH rsvg_convert) as [prog|]; [|discriminate].
  destruct (prog rsvg_args (fs w)) as [code m]. cbn [fst snd].
  destruct (code =? 0); [|discriminate].
  destruct (m !! car_temp_png) as [[xml|im]|] eqn:Hm; try discriminate.
  rewrite compose_icon_run.
  destruct (scaled_size _) as [e|[nw nh]]; [discriminate|].
  destruct (Image.resize _ _ _) as [e|resized] eqn:Er; [discriminate|].
  apply resize_returns in Er as (Hsz & _).
  cbn [fs set_fs record_calls]. rewrite Hm.
  intros H; inversion H; subst w'. clear H.
  exists (flattened resized (nw, nh)), nw, nh.
  eexists. cbn [fs trace set_fs record_calls]. split_and!.
  - rewrite lookup_delete_ne by discriminate. apply lookup_insert_eq.
  - rewrite Hsz, <- app_assoc. reflexivity.
  - reflexivity.
  - reflexivity.
  - intros xy. destruct (getpixel _ xy) as [[r g] b]. reflexivity.
  - intros x y Hout. apply flattened_outside; assumption.
Qed.

Lemma output_is_rgb_and_white_outside_content_witness :
  exists (icon_rgb : image rgb) (new_w new_h : Z) (before : list call),
    fs (snd (generate_icon
               (only_rsvg (writes (Png (RGBA_image
                  (block_raster (8, 6) (2, 1, 5, 4)))) 0))
               nearest fresh_checkout)) !! icon_png
    = Some (Png (RGB_image icon_rgb)) /\
    trace (snd (generate_icon
                  (only_rsvg (writes (Png (RGBA_image
                     (block_raster (8, 6) (2, 1, 5, 4)))) 0))
                  nearest fresh_checkout))
    = trace fresh_checkout ++ before ++ compose_calls (new_w, new_h) /\
    mode icon_rgb = "RGB" /\
    size icon_rgb = (icon_size, icon_size) /\
    (forall xy, length (getbands (getpixel icon_rgb xy)) = 3%nat) /\
    (forall x y,
        ~ (offset_x new_w <= x < offset_x new_w + new_w /\
           offset_y new_h <= y < offset_y new_h + new_h) ->
        getpixel icon_rgb (x, y) = (255, 255, 255)).
Proof.
  apply (output_is_rgb_and_white_outside_content
           (only_rsvg (writes (Png (RGBA_image
              (block_raster (8, 6) (2, 1, 5, 4)))) 0))
           nearest fresh_checkout).
  apply run_returns. vm_compute. reflexivity.
Defined.

(* ===================================================================== *)
(** * Running the script again *)
(* ===================================================================== *)

(** C9: with a rasterizer whose result is determined by the unchanged
    vector source, a second run after a successful first run succeeds too
    and overwrites the icon with the same file. *)
Theorem second_run_writes_same_icon
        (PATH : string -> option program)
        (LANCZOS : image rgba -> Z * Z -> Z * Z -> rgba)
        (w w1 : world) :
  (forall prog, PATH rsvg_convert = Some prog -> reads_only_logo prog) ->
  generate_icon PATH LANCZOS w = (Return tt, w1) ->
  exists w2 icon_rgb,
    generate_icon PATH LANCZOS w1 = (Return tt, w2) /\
    fs w1 !! icon_png = Some (Png (RGB_image icon_rgb)) /\
    fs w2 !! icon_png = Some (Png (RGB_image icon_rgb)) /\
    In (Image_save icon_png) (skipn (length (trace w1)) (trace w2)).
Proof.
  intros Hdet. rewrite !generate_icon_run.
  destruct (PATH rsvg_convert) as [prog|] eqn:HP; [|discriminate].
  destruct (Hdet prog eq_refl) as [Hsame Hkeep].
  destruct (prog rsvg_args (fs w)) as [code m] eqn:Hrun. cbn [fst snd].
  destruct (code =? 0) eqn:Hcode; [|discriminate].
  destruct (m !! car_temp_png) as [[xml|im]|] eqn:Hm; try discriminate.
  rewrite compose_icon_run.
  destruct (scaled_size _) as [e|sz] eqn:Hs; [discriminate|].
  destruct (Image.resize _ _ _) as [e|resized] eqn:Er; [discriminate|].
  cbn [fs set_fs record_calls]. rewrite Hm.
  intros H; inversion H; subst w1. clear H.
  cbn [fs trace set_fs record_calls].
  set (fs1 := delete car_temp_png
                (<[icon_png := Png (RGB_image (flattened resized sz))]> m)).
  assert (Hlogo : fs1 !! logo_svg = fs w !! logo_svg).
  { unfold fs1. rewrite lookup_delete_ne, lookup_insert_ne by discriminate.
    specialize (Hkeep (fs w)). rewrite Hrun in Hkeep. exact Hkeep. }
  destruct (Hsame fs1 (fs w) Hlogo) as [Hc Ht].
  rewrite Hrun in Hc, Ht. cbn [fst snd] in Hc, Ht.
  rewrite Hc, Hcode, Ht, Hm, compose_icon_run, Hs, Er.
  cbn [fs set_fs record_calls]. rewrite Ht, Hm.
  eexists. exists (flattened resized sz). split; [reflexivity|].
  cbn [fs trace set_fs record_calls]. split_and!.
  - unfold fs1. rewrite lookup_delete_ne by discriminate. apply lookup_insert_eq.
  - rewrite lookup_delete_ne by discriminate. apply lookup_insert_eq.
  - match goal with |- In _ (drop (length ?t) _) => set (t1 := t) end.
    rewrite <- (app_assoc t1), drop_app_length.
    rewrite !in_app_iff. right. unfold compose_calls. simpl. tauto.
Qed.

Lemma writes_reads_only_logo (f : file) (returncode : Z) :
  reads_only_logo (writes f returncode).
Proof.
  split.
  - intros m m' _. unfold writes. cbn [fst snd].
    rewrite !lookup_insert_eq. auto.
  - intros m. unfold writes. cbn [snd].
    apply lookup_insert_ne. discriminate.
Qed.

Lemma second_run_writes_same_icon_witness :
  exists w2 icon_rgb,
    generate_icon
      (only_rsvg (writes (Png (RGBA_image (block_raster (8, 6) (2, 1, 5, 4)))) 0))
      nearest
      (snd (generate_icon
              (only_rsvg (writes (Png (RGBA_image
                 (block_raster (8, 6) (2, 1, 5, 4)))) 0))
              nearest fresh_checkout))
    = (Return tt, w2) /\
    fs (snd (generate_icon
               (only_rsvg (writes (Png (RGBA_image
                  (block_raster (8, 6) (2, 1, 5, 4)))) 0))
               nearest fresh_checkout)) !! icon_png
    = Some (Png (RGB_image icon_rgb)) /\
    fs w2 !! icon_png = Some (Png (RGB_image icon_rgb)) /\
    In (Image_save icon_png)
       (skipn (length (trace (snd (generate_icon
                 (only_rsvg (writes (Png (RGBA_image
                    (block_raster (8, 6) (2, 1, 5, 4)))) 0))
                 nearest fresh_checkout))))
              (trace w2)).
Proof.
  apply (second_run_writes_same_icon
           (only_rsvg (writes (Png (RGBA_image
              (block_raster (8, 6) (2, 1, 5, 4)))) 0))
           nearest fresh_checkout).
  - intros prog Hp. unfold only_rsvg in Hp. simpl in Hp.
    inversion Hp. apply writes_reads_only_logo.
  - apply run_returns. vm_compute. reflexivity.
Defined.

(* ===================================================================== *)
(** * Step 4 on particular sizes *)
(* ===================================================================== *)

Lemma compose_icon_on (LANCZOS : image rgba -> Z * Z -> Z * Z -> rgba)
      (car_img : image rgba) (w : world) (sz : Z * Z) :
  scaled_size (size car_img) = Return sz ->
  compose_icon LANCZOS car_img w =
  match Image.resize LANCZOS car_img sz with
  | Raise e =>
      (Raise e, record_calls [Image_new (icon_size, icon_size); Image_resize sz] w)
  | Return resized =>
      match fs w !! car_temp_png with
      | None =>
          (Raise (FileNotFoundError car_temp_png),
           set_fs (<[icon_png := Png (RGB_image (flattened resized sz))]> (fs w))
                  (record_calls (firstn 9 (compose_calls (size resized))) w))
      | Some _ =>
          (Return tt,
           set_fs (delete car_temp_png
                     (<[icon_png := Png (RGB_image (flattened resized sz))]> (fs w)))
                  (record_calls (compose_calls (size resized)) w))
      end
  end.
Proof. intros H. rewrite compose_icon_run, H. reflexivity. Qed.

(** C10: the scaled dimensions are not always positive.  Content of
    800 x 1 pixels gets scale = min(744/800, 744/1) = 0.93, so
    new_w = int(800 * 0.93) = 744 and new_h = int(1 * 0.93) = 0, and the
    resize call is made with the size (744, 0); it is the last call of the
    run. *)
Theorem scaled_height_can_be_zero :
  max_area = 744 /\
  scale 800 1 = PyFloat.truediv 93 100 /\
  scaled_size (800, 1) = Return (744, 0) /\
  forall (LANCZOS : image rgba -> Z * Z -> Z * Z -> rgba)
         (car_img : image rgba) (w : world),
    size car_img = (800, 1) ->
    exists r,
      compose_icon LANCZOS car_img w =
      (r, record_calls [Image_new (icon_size, icon_size); Image_resize (744, 0)] w).
Proof.
  split; [reflexivity|]. split; [vm_compute; reflexivity|].
  assert (Hs : scaled_size (800, 1) = Return (744, 0)) by (vm_compute; reflexivity).
  split; [exact Hs|].
  intros K car_img w Hsz. rewrite (compose_icon_on K car_img w (744, 0)).
  - eexists. reflexivity.
  - rewrite Hsz. exact Hs.
Qed.

Lemma scaled_height_can_be_zero_witness :
  exists r,
    compose_icon nearest (block_raster (800, 1) (0, 0, 800, 1)) fresh_checkout =
    (r, record_calls [Image_new (icon_size, icon_size); Image_resize (744, 0)]
                     fresh_checkout).
Proof.
  destruct scaled_height_can_be_zero as (_ & _ & _ & H).
  apply (H nearest (block_raster (800, 1) (0, 0, 800, 1)) fresh_checkout).
  reflexivity.
Defined.

(** C4: content of 600 x 600 pixels, canvas 1024, padding 140:
    available = 744, scale = 744/600 = 1.24, scaled size 744 x 744, offset
    (1024 - 744) / 2 = 140 on both axes; the run writes a 1024 x 1024 RGB
    icon whose pixels in the square with corners (140, 140) and (884, 884)
    are the resized content blended onto white (the resized content itself
    where it is opaque) and whose other pixels are white. *)
Theorem square_600_fills_140_884
        (LANCZOS : image rgba -> Z * Z -> Z * Z -> rgba)
        (car_img : image rgba) (w : world) (temp : file) :
  size car_img = (600, 600) ->
  fs w !! car_temp_png = Some temp ->
  max_area = 744 /\
  scale 600 600 = PyFloat.truediv 124 100 /\
  scaled_size (600, 600) = Return (744, 744) /\
  offset_x 744 = 140 /\ offset_y 744 = 140 /\
  exists (icon_rgb : image rgb) (w' : world),
    compose_icon LANCZOS car_img w = (Return tt, w') /\
    trace w' = trace w ++ compose_calls (744, 744) /\
    fs w' !! icon_png = Some (Png (RGB_image icon_rgb)) /\
    mode icon_rgb = "RGB" /\
    size icon_rgb = (1024, 1024) /\
    (forall x y, 140 <= x < 884 -> 140 <= y < 884 ->
       let p := LANCZOS car_img (744, 744) (x - 140, y - 140) in
       getpixel icon_rgb (x, y) =
       Image.drop_alpha (Image.blend_rgba (alpha p) white p) /\
       (valid_rgba p -> alpha p = 255 ->
        getpixel icon_rgb (x, y) = Image.drop_alpha p)) /\
    (forall x y, ~ (140 <= x < 884 /\ 140 <= y < 884) ->
       getpixel icon_rgb (x, y) = (255, 255, 255)).
Proof.
  intros Hsz Htemp.
  assert (Hs : scaled_size (600, 600) = Return (744, 744)) by (vm_compute; reflexivity).
  split; [reflexivity|]. split; [vm_compute; reflexivity|].
  split; [exact Hs|]. split; [reflexivity|]. split; [reflexivity|].
  rewrite (compose_icon_on LANCZOS car_img w (744, 744)) by (rewrite Hsz; exact Hs).
  destruct (Image.resize LANCZOS car_img (744, 744)) as [e|resized] eqn:Er.
  { unfold Image.resize in Er. simpl in Er. discriminate. }
  apply resize_returns in Er as (Hrs & Hpix & _).
  rewrite Htemp. exists (flattened resized (744, 744)). eexists.
  split; [reflexivity|]. cbn [fs trace set_fs record_calls]. split_and!.
  - rewrite Hrs. reflexivity.
  - rewrite lookup_delete_ne by discriminate. apply lookup_insert_eq.
  - reflexivity.
  - reflexivity.
  - intros x y Hx Hy.
    set (p := LANCZOS car_img (744, 744) (x - 140, y - 140)).
    assert (Hin : getpixel (flattened resized (744, 744)) (x, y) =
                  Image.drop_alpha (Image.blend_rgba (alpha p) white p)).
    { subst p. rewrite <- Hpix. apply (flattened_inside resized (744, 744) x y Hrs).
      - cbn [fst]. change (offset_x 744) with 140. lia.
      - cbn [snd]. change (offset_y 744) with 140. lia. }
    split; [exact Hin|]. intros Hv Ha. rewrite Hin, Ha.
    rewrite blend_rgba_opaque by exact Hv. reflexivity.
  - intros x y Hout. apply flattened_outside; [exact Hrs|].
    cbn [fst snd]. change (offset_x 744) with 140. change (offset_y 744) with 140.
    lia.
Qed.

Lemma square_600_fills_140_884_witness :
  exists (icon_rgb : image rgb) (w' : world),
    compose_icon nearest (Image.new (600, 600) (200, 30, 40, 255))
      (set_fs (<[car_temp_png := Png (RGBA_image (Image.new (600, 600) (200, 30, 40, 255)))]>
                 (fs fresh_checkout)) fresh_checkout)
    = (Return tt, w') /\
    fs w' !! icon_png = Some (Png (RGB_image icon_rgb)) /\
    size icon_rgb = (1024, 1024) /\
    getpixel icon_rgb (140, 140) = (200, 30, 40) /\
    getpixel icon_rgb (883, 883) = (200, 30, 40) /\
    getpixel icon_rgb (139, 140) = (255, 255, 255) /\
    getpixel icon_rgb (884, 883) = (255, 255, 255).
Proof.
  destruct (square_600_fills_140_884 nearest
              (Image.new (600, 600) (200, 30, 40, 255))
              (set_fs (<[car_temp_png := Png (RGBA_image (Image.new (600, 600) (200, 30, 40, 255)))]>
                 (fs fresh_checkout)) fresh_checkout)
              (Png (RGBA_image (Image.new (600, 600) (200, 30, 40, 255)))))
    as (_ & _ & _ & _ & _ & icon_rgb & w' & Hrun & _ & Hfs & _ & Hsz & Hin & Hout).
  - reflexivity.
  - vm_compute. reflexivity.
  - exists icon_rgb, w'. split_and!; try assumption.
    + apply (Hin 140 140); [lia | lia | | reflexivity].
      vm_compute. intuition discriminate.
    + apply (Hin 883 883); [lia | lia | | reflexivity].
      vm_compute. intuition discriminate.
    + apply Hout. lia.
    + apply Hout. lia.
Defined.

(* ===================================================================== *)
(** * Step 4 on every size *)
(* ===================================================================== *)

(** The claim as the specification words it fails: content of 41 x 41
    pixels is scaled to 743 x 743, so neither axis reaches 744.  The
    quotient 744 / 41 rounds down in binary64, the product 41 * scale is
    743.99999999999989, and [int] truncates it. *)
Lemma scaled_size_41_misses_max_area :
  scaled_size (41, 41) = Return (743, 743) /\
  ~ (forall w h, 0 < w -> 0 < h ->
       exists nw nh,
         scaled_size (w, h) = Return (nw, nh) /\
         nw <= max_area /\ nh <= max_area /\
         (nw = max_area \/ nh = max_area)).
Proof.
  assert (H41 : scaled_size (41, 41) = Return (743, 743)) by (vm_compute; reflexivity).
  split; [exact H41|].
  intros Hall. destruct (Hall 41 41 ltac:(lia) ltac:(lia))
    as (nw & nh & Hs & _ & _ & Heq).
  rewrite H41 in Hs. inversion Hs; subst. unfold max_area, icon_size, padding in Heq.
  lia.
Qed.

(** From the proportional bounds to the pixel bounds. *)
Lemma proportional_size_bounds (A M x n : Z) :
  0 < A -> 1 <= x <= M -> M * n <= A * x <= M * (n + 1) ->
  0 <= n <= A /\ (x = M -> A - 1 <= n).
Proof.
  intros HA Hx [Hlo Hhi]. split_and!.
  - destruct (Z.le_gt_cases 0 n) as [|Hneg]; [assumption|exfalso].
    pose proof (Z.mul_nonneg_nonpos M (n + 1) ltac:(lia) ltac:(lia)).
    pose proof (Z.mul_pos_pos A x ltac:(lia) ltac:(lia)). lia.
  - destruct (Z.le_gt_cases n A) as [|Hbig]; [assumption|exfalso].
    pose proof (Z.mul_le_mono_nonneg_l (A + 1) n M ltac:(lia) ltac:(lia)).
    pose proof (Z.mul_le_mono_nonneg_l x M A ltac:(lia) ltac:(lia)). lia.
  - intros ->. destruct (Z.le_gt_cases (A - 1) n) as [|Hsmall]; [assumption|exfalso].
    pose proof (Z.mul_le_mono_nonneg_l (n + 1) (A - 1) M ltac:(lia) ltac:(lia)).
    lia.
Qed.

Lemma proportional_aspect (A M w h nw nh : Z) :
  0 < M -> 0 <= w -> 0 <= h ->
  M * nw <= A * w <= M * (nw + 1) ->
  M * nh <= A * h <= M * (nh + 1) ->
  - h <= nw * h - nh * w <= w.
Proof.
  intros HM Hw Hh [Lw Uw] [Lh Uh]. split.
  - pose proof (Z.mul_le_mono_nonneg_r _ _ w Hw Lh) as H1.
    pose proof (Z.mul_le_mono_nonneg_r _ _ h Hh Uw) as H2.
    assert (H3 : M * (nh * w) <= M * ((nw + 1) * h)) by lia.
    apply (Z.mul_le_mono_pos_l _ _ M HM) in H3. lia.
  - pose proof (Z.mul_le_mono_nonneg_r _ _ h Hh Lw) as H1.
    pose proof (Z.mul_le_mono_nonneg_r _ _ w Hw Uh) as H2.
    assert (H3 : M * (nw * h) <= M * ((nh + 1) * w)) by lia.
    apply (Z.mul_le_mono_pos_l _ _ M HM) in H3. lia.
Qed.

(** C1, amended: for content of w x h pixels (sizes an image can have,
    below 2^31), scale is min(744 / w, 744 / h) in binary64 and the scaled
    dimensions are int(w * scale) and int(h * scale).  Both are at most
    744; the one along the larger content dimension is 744 or 743; each is
    the exact proportional size 744 * d / max(w, h) rounded down, or one
    less when the float product falls just short of that integer; so the
    aspect ratio is kept up to one pixel: -h <= nw * h - nh * w <= w. *)
Theorem scaled_size_fits_within_one_pixel (w h : Z) :
  1 <= w < 2 ^ 31 -> 1 <= h < 2 ^ 31 ->
  exists a b s nw nh,
    max_area = 744 /\
    PyFloat.truediv max_area w = Return a /\
    PyFloat.truediv max_area h = Return b /\
    s = PyFloat.min a b /\
    scale w h = Return s /\
    new_w w s = Return nw /\
    new_h h s = Return nh /\
    scaled_size (w, h) = Return (nw, nh) /\
    0 <= nw <= max_area /\
    0 <= nh <= max_area /\
    (h <= w -> max_area - 1 <= nw) /\
    (w <= h -> max_area - 1 <= nh) /\
    Z.max w h * nw <= max_area * w <= Z.max w h * (nw + 1) /\
    Z.max w h * nh <= max_area * h <= Z.max w h * (nh + 1) /\
    - h <= nw * h - nh * w <= w.
Proof.
  intros Hw Hh.
  assert (H31 : 2 ^ 31 < 2 ^ 53) by reflexivity.
  destruct (scale_correct w h ltac:(lia) ltac:(lia))
    as (a & b & ms & es & Ha & Hb & Hs & Hmin & Hms & Hes & UM & LM).
  set (M := Z.max w h) in *.
  assert (HM : 1 <= M < 2 ^ 31) by (unfold M; lia).
  destruct (scaled_dim_correct w M ms es ltac:(unfold M; lia) ltac:(lia)
              Hms Hes UM LM) as (nw & Hnw & Bw).
  destruct (scaled_dim_correct h M ms es ltac:(unfold M; lia) ltac:(lia)
              Hms Hes UM LM) as (nh & Hnh & Bh).
  exists a, b, (PyFloat.min a b), nw, nh.
  assert (Hsz : scaled_size (w, h) = Return (nw, nh)).
  { unfold scaled_size. rewrite Hs. cbn [mbind result_bind].
    unfold new_w, new_h. rewrite Hmin, Hnw. cbn [mbind result_bind].
    rewrite Hnh. reflexivity. }
  unfold new_w, new_h. rewrite Hmin in Hs |- *.
  destruct (proportional_size_bounds max_area M w nw ltac:(reflexivity)
              ltac:(lia) Bw) as (Rw & Cw).
  destruct (proportional_size_bounds max_area M h nh ltac:(reflexivity)
              ltac:(lia) Bh) as (Rh & Ch).
  pose proof (proportional_aspect max_area M w h nw nh ltac:(lia) ltac:(lia)
                ltac:(lia) Bw Bh) as Hasp.
  split_and!; try reflexivity; try assumption; try lia.
Qed.

Lemma scaled_size_fits_within_one_pixel_witness :
  exists a b s nw nh,
    max_area = 744 /\
    PyFloat.truediv max_area 41 = Return a /\
    PyFloat.truediv max_area 41 = Return b /\
    s = PyFloat.min a b /\
    scale 41 41 = Return s /\
    new_w 41 s = Return nw /\
    new_h 41 s = Return nh /\
    scaled_size (41, 41) = Return (nw, nh) /\
    0 <= nw <= max_area /\
    0 <= nh <= max_area /\
    (41 <= 41 -> max_area - 1 <= nw) /\
    (41 <= 41 -> max_area - 1 <= nh) /\
    Z.max 41 41 * nw <= max_area * 41 <= Z.max 41 41 * (nw + 1) /\
    Z.max 41 41 * nh <= max_area * 41 <= Z.max 41 41 * (nh + 1) /\
    - 41 <= nw * 41 - nh * 41 <= 41.
Proof.
  apply (scaled_size_fits_within_one_pixel 41 41); vm_compute; intuition discriminate.
Defined.

(* ===================================================================== *)
(** * Step 2 further: what cropping keeps *)
(* ===================================================================== *)

(** The box of a raster that has data lies inside the raster and is not
    empty. *)
Lemma getbbox_inside (im : image rgba) (x0 y0 x1 y1 : Z) :
  Image.getbbox im = Some (x0, y0, x1, y1) ->
  0 <= x0 < x1 /\ x1 <= width im /\ 0 <= y0 < y1 /\ y1 <= height im.
Proof.
  intros Hb. pose proof (getbbox_scan im) as H. rewrite Hb in H.
  destruct H as (Hall & (ya & Ha1 & Ha2 & Ha3) & (yb & Hb1 & Hb2 & Hb3)
                 & (xc & Hc1 & Hc2 & Hc3) & (xd & Hd1 & Hd2 & Hd3)).
  destruct (Hall x0 ya ltac:(lia) ltac:(lia) Ha3).
  destruct (Hall xc y0 ltac:(lia) ltac:(lia) Hc3). lia.
Qed.

Lemma getbbox_some (im : image rgba) (x y : Z) :
  inside im x y -> nonzero im x y -> Image.getbbox im <> None.
Proof.
  intros [Hx Hy] Hn Hb. pose proof (getbbox_scan im) as H. rewrite Hb in H.
  exact (H x y Hx Hy Hn).
Qed.

(** A raster with data on each of its four border lines is its own box. *)
Lemma getbbox_full (im : image rgba) :
  (exists y, 0 <= y < height im /\ nonzero im 0 y) ->
  (exists y, 0 <= y < height im /\ nonzero im (width im - 1) y) ->
  (exists x, 0 <= x < width im /\ nonzero im x 0) ->
  (exists x, 0 <= x < width im /\ nonzero im x (height im - 1)) ->
  0 < width im -> 0 < height im ->
  Image.getbbox im = Some (0, 0, width im, height im).
Proof.
  intros (ya & Hya & Na) (yb & Hyb & Nb) (xc & Hxc & Nc) (xd & Hxd & Nd) HW HH.
  pose proof (getbbox_scan im) as H.
  destruct (Image.getbbox im) as [[[[x0 y0] x1] y1]|] eqn:Hb.
  - destruct (getbbox_inside im x0 y0 x1 y1 Hb) as (I1 & I2 & I3 & I4).
    destruct H as (Hall & _).
    destruct (Hall 0 ya ltac:(lia) Hya Na).
    destruct (Hall (width im - 1) yb ltac:(lia) Hyb Nb).
    destruct (Hall xc 0 Hxc ltac:(lia) Nc).
    destruct (Hall xd (height im - 1) Hxd ltac:(lia) Nd).
    repeat f_equal; lia.
  - exfalso. apply (H 0 ya); [lia | lia | exact Na].
Qed.

(** X2: the content bitmap of a raster of positive size has positive size
    no larger than the raster's, whether or not a crop happened; when the
    raster has data, the content is the raster cut to its box, and every
    pixel with data is still there, moved by the box corner. *)
Theorem content_keeps_every_pixel_with_data (im : image rgba) :
  1 <= width im -> 1 <= height im ->
  1 <= width (content im) <= width im /\
  1 <= height (content im) <= height im /\
  ((forall x y, inside im x y -> ~ nonzero im x y) -> content im = im) /\
  ((exists x y, inside im x y /\ nonzero im x y) ->
   exists x0 y0 x1 y1,
     Image.getbbox im = Some (x0, y0, x1, y1) /\
     size (content im) = (x1 - x0, y1 - y0) /\
     (forall x y, getpixel (content im) (x, y) = getpixel im (x + x0, y + y0)) /\
     (forall x y, inside im x y -> nonzero im x y ->
                  inside (content im) (x - x0) (y - y0) /\
                  getpixel (content im) (x - x0, y - y0) = getpixel im (x, y))).
Proof.
  intros HW HH. unfold content.
  pose proof (getbbox_scan im) as Hscan.
  destruct (Image.getbbox im) as [[[[x0 y0] x1] y1]|] eqn:Hb.
  - destruct (getbbox_inside im x0 y0 x1 y1 Hb) as (I1 & I2 & I3 & I4).
    destruct Hscan as (Hall & (ya & Ha1 & Ha2 & Ha3) & _).
    unfold Image.crop, width, height, inside; cbn [size getpixel fst snd].
    unfold width, height in *. split_and!; try lia.
    + intros Hnone. exfalso. apply (Hnone x0 ya); [split; lia | exact Ha3].
    + intros _. exists x0, y0, x1, y1. split_and!; try reflexivity.
      intros x y [Hx Hy] Hn. destruct (Hall x y Hx Hy Hn).
      cbn [size fst snd]. split; [lia|]. f_equal. f_equal; lia.
  - split_and!; try lia.
    + reflexivity.
    + intros (x & y & [Hx Hy] & Hn). exfalso. exact (Hscan x y Hx Hy Hn).
Qed.

Lemma content_keeps_every_pixel_with_data_witness :
  1 <= width (content (block_raster (8, 6) (2, 1, 5, 4))) <= 8 /\
  1 <= height (content (block_raster (8, 6) (2, 1, 5, 4))) <= 6.
Proof.
  destruct (content_keeps_every_pixel_with_data (block_raster (8, 6) (2, 1, 5, 4)))
    as (Hw & Hh & _); [vm_compute; discriminate | vm_compute; discriminate |].
  split; assumption.
Defined.

(** X3: the content bitmap has no transparent border left: when the raster
    has data, the bounding box of the content is the whole content, so
    cropping a second time would change nothing. *)
Theorem content_is_its_own_bbox (im : image rgba) :
  (exists x y, inside im x y /\ nonzero im x y) ->
  Image.getbbox (content im) =
  Some (0, 0, width (content im), height (content im)).
Proof.
  intros (xv & yv & [Hxv Hyv] & Hnv).
  pose proof (getbbox_scan im) as Hscan. unfold content.
  destruct (Image.getbbox im) as [[[[x0 y0] x1] y1]|] eqn:Hb.
  2:{ exfalso. exact (Hscan xv yv Hxv Hyv Hnv). }
  destruct (getbbox_inside im x0 y0 x1 y1 Hb) as (I1 & I2 & I3 & I4).
  destruct Hscan as (Hall & (ya & Ha1 & Ha2 & Ha3) & (yb & Hb1 & Hb2 & Hb3)
                     & (xc & Hc1 & Hc2 & Hc3) & (xd & Hd1 & Hd2 & Hd3)).
  destruct (Hall x0 ya ltac:(lia) Ha2 Ha3).
  destruct (Hall (x1 - 1) yb ltac:(lia) Hb2 Hb3).
  destruct (Hall xc y0 Hc1 ltac:(lia) Hc3).
  destruct (Hall xd (y1 - 1) Hd1 ltac:(lia) Hd3).
  apply getbbox_full; unfold width, height, nonzero, Image.crop;
    cbn [size getpixel fst snd]; try lia.
  - exists (ya - y0). split; [lia|]. replace (0 + x0) with x0 by lia.
    replace (ya - y0 + y0) with ya by lia. exact Ha3.
  - exists (yb - y0). split; [lia|]. replace (x1 - x0 - 1 + x0) with (x1 - 1) by lia.
    replace (yb - y0 + y0) with yb by lia. exact Hb3.
  - exists (xc - x0). split; [lia|]. replace (xc - x0 + x0) with xc by lia.
    replace (0 + y0) with y0 by lia. exact Hc3.
  - exists (xd - x0). split; [lia|]. replace (xd - x0 + x0) with xd by lia.
    replace (y1 - y0 - 1 + y0) with (y1 - 1) by lia. exact Hd3.
Qed.

Lemma content_is_its_own_bbox_witness :
  Image.getbbox (content (block_raster (8, 6) (2, 1, 5, 4))) =
  Some (0, 0, width (content (block_raster (8, 6) (2, 1, 5, 4))),
        height (content (block_raster (8, 6) (2, 1, 5, 4)))).
Proof.
  apply (content_is_its_own_bbox (block_raster (8, 6) (2, 1, 5, 4))).
  exists 2, 1. unfold inside, nonzero. vm_compute. intuition discriminate.
Defined.



(* ===================================================================== *)
(** * Step 1 further: a raster that cannot be read *)
(* ===================================================================== *)

(** X1: when the rasterizer exits 0 but leaves no file, or no bitmap, at
    the temporary path, [Image.open] raises; the run stops after these two
    calls and writes nothing: the filesystem is as the rasterizer left it. *)
Theorem unreadable_raster_is_fatal
        (PATH : string -> option program)
        (LANCZOS : image rgba -> Z * Z -> Z * Z -> rgba)
        (w : world) (prog : program) (m : gmap string file) :
  PATH rsvg_convert = Some prog ->
  prog rsvg_args (fs w) = (0, m) ->
  (m !! car_temp_png = None ->
   generate_icon PATH LANCZOS w =
   (Raise (FileNotFoundError car_temp_png),
    set_fs m (record_calls [rasterizer_call; Image_open car_temp_png] w))) /\
  (forall xml, m !! car_temp_png = Some (Svg xml) ->
   generate_icon PATH LANCZOS w =
   (Raise (UnidentifiedImageError car_temp_png),
    set_fs m (record_calls [rasterizer_call; Image_open car_temp_png] w))).
Proof.
  intros HP Hrun. split.
  - intros Hm. rewrite generate_icon_run, HP, Hrun. cbn [fst snd Z.eqb].
    rewrite Hm. reflexivity.
  - intros xml Hm. rewrite generate_icon_run, HP, Hrun. cbn [fst snd Z.eqb].
    rewrite Hm. reflexivity.
Qed.

Lemma unreadable_raster_is_fatal_witness :
  generate_icon (only_rsvg (fun _ m => (0, m))) nearest fresh_checkout =
  (Raise (FileNotFoundError car_temp_png),
   set_fs (fs fresh_checkout)
     (record_calls [rasterizer_call; Image_open car_temp_png] fresh_checkout)) /\
  generate_icon (only_rsvg (writes (Svg "<svg/>") 0)) nearest fresh_checkout =
  (Raise (UnidentifiedImageError car_temp_png),
   set_fs (<[car_temp_png := Svg "<svg/>"]> (fs fresh_checkout))
     (record_calls [rasterizer_call; Image_open car_temp_png] fresh_checkout)).
Proof.
  split.
  - apply (unreadable_raster_is_fatal (only_rsvg (fun _ m => (0, m))) nearest
             fresh_checkout (fun _ m => (0, m)) (fs fresh_checkout));
      [reflexivity | reflexivity | vm_compute; reflexivity].
  - apply (unreadable_raster_is_fatal (only_rsvg (writes (Svg "<svg/>") 0)) nearest
             fresh_checkout (writes (Svg "<svg/>") 0)
             (<[car_temp_png := Svg "<svg/>"]> (fs fresh_checkout)))
      with (xml := "<svg/>");
      [reflexivity | reflexivity | vm_compute; reflexivity].
Defined.

(* ===================================================================== *)
(** * What the script leaves alone *)
(* ===================================================================== *)

(** X10: whatever the outcome, the script itself changes only
    [assets/icon.png] and [assets/car_temp.png]: every other path holds
    after the run what the rasterizer left there. *)
Theorem script_touches_only_its_two_files
        (PATH : string -> option program)
        (LANCZOS : image rgba -> Z * Z -> Z * Z -> rgba)
        (w w' : world) (r : result unit) (path : string) :
  generate_icon PATH LANCZOS w = (r, w') ->
  path <> icon_png -> path <> car_temp_png ->
  fs w' !! path = rasterized PATH w !! path.
Proof.
  intros Hrun Hicon Htemp. rewrite generate_icon_run in Hrun. unfold rasterized.
  destruct (PATH rsvg_convert) as [prog|]; [|inversion Hrun; reflexivity].
  destruct (prog rsvg_args (fs w)) as [code m]. cbn [fst snd] in *.
  destruct (code =? 0); [|inversion Hrun; reflexivity].
  destruct (m !! car_temp_png) as [[xml|im]|] eqn:Hm;
    try (inversion Hrun; reflexivity).
  rewrite compose_icon_run in Hrun.
  destruct (scaled_size _) as [e|sz]; [inversion Hrun; reflexivity|].
  destruct (Image.resize _ _ _) as [e|resized]; [inversion Hrun; reflexivity|].
  cbn [fs set_fs record_calls] in Hrun. rewrite Hm in Hrun.
  inversion Hrun; subst. cbn [fs set_fs].
  rewrite lookup_delete_ne, lookup_insert_ne by congruence. reflexivity.
Qed.

Lemma script_touches_only_its_two_files_witness :
  fs (snd (generate_icon
             (only_rsvg (writes (Png (RGBA_image
                (block_raster (8, 6) (2, 1, 5, 4)))) 0))
             nearest fresh_checkout)) !! logo_svg =
  rasterized (only_rsvg (writes (Png (RGBA_image
                (block_raster (8, 6) (2, 1, 5, 4)))) 0)) fresh_checkout
  !! logo_svg.
Proof.
  apply (script_touches_only_its_two_files
           (only_rsvg (writes (Png (RGBA_image
              (block_raster (8, 6) (2, 1, 5, 4)))) 0))
           nearest fresh_checkout _ (Return tt)).
  - apply run_returns. vm_compute. reflexivity.
  - discriminate.
  - discriminate.
Defined.

(* ===================================================================== *)
(** * Steps 4 and 5 further: the layout on the canvas *)
(* ===================================================================== *)

(** The scaled size of content w x h, against the exact proportional
    size. *)
Lemma scaled_size_proportional (w h : Z) :
  1 <= w < 2 ^ 31 -> 1 <= h < 2 ^ 31 ->
  exists nw nh,
    scaled_size (w, h) = Return (nw, nh) /\
    Z.max w h * nw <= max_area * w <= Z.max w h * (nw + 1) /\
    Z.max w h * nh <= max_area * h <= Z.max w h * (nh + 1).
Proof.
  intros Hw Hh.
  assert (H31 : 2 ^ 31 < 2 ^ 53) by reflexivity.
  destruct (scale_correct w h ltac:(lia) ltac:(lia))
    as (a & b & ms & es & Ha & Hb & Hs & Hmin & Hms & Hes & UM & LM).
  destruct (scaled_dim_correct w (Z.max w h) ms es ltac:(lia) ltac:(lia)
              Hms Hes UM LM) as (nw & Hnw & Bw).
  destruct (scaled_dim_correct h (Z.max w h) ms es ltac:(lia) ltac:(lia)
              Hms Hes UM LM) as (nh & Hnh & Bh).
  exists nw, nh. split; [|split; assumption].
  unfold scaled_size. rewrite Hs. cbn [mbind result_bind].
  unfold new_w, new_h. rewrite Hmin, Hnw. cbn [mbind result_bind].
  rewrite Hnh. reflexivity.
Qed.

Lemma offset_keeps_padding (d : Z) :
  0 <= d <= max_area ->
  padding <= offset_x d /\ offset_x d + d <= icon_size - padding /\
  padding <= offset_y d /\ offset_y d + d <= icon_size - padding.
Proof.
  unfold offset_x, offset_y, max_area, icon_size, padding. intros Hd.
  pose proof (Z.div_mod (1024 - d) 2 ltac:(lia)) as Hdm.
  pose proof (Z.mod_pos_bound (1024 - d) 2 ltac:(lia)) as Hmod.
  lia.
Qed.

(** X5: for every content size the scaled content is pasted at least
    [padding] = 140 pixels away from each edge of the canvas: the paste
    box lies inside the square from 140 to 884 on both axes. *)
Theorem paste_box_keeps_the_padding (w h : Z) :
  1 <= w < 2 ^ 31 -> 1 <= h < 2 ^ 31 ->
  exists nw nh,
    scaled_size (w, h) = Return (nw, nh) /\
    padding <= offset_x nw /\ offset_x nw + nw <= icon_size - padding /\
    padding <= offset_y nh /\ offset_y nh + nh <= icon_size - padding.
Proof.
  intros Hw Hh.
  destruct (scaled_size_proportional w h Hw Hh) as (nw & nh & Hs & Bw & Bh).
  destruct (proportional_size_bounds max_area (Z.max w h) w nw
              ltac:(reflexivity) ltac:(lia) Bw) as (Rw & _).
  destruct (proportional_size_bounds max_area (Z.max w h) h nh
              ltac:(reflexivity) ltac:(lia) Bh) as (Rh & _).
  exists nw, nh. split; [exact Hs|].
  destruct (offset_keeps_padding nw Rw) as (A & B & _).
  destruct (offset_keeps_padding nh Rh) as (_ & _ & C & D).
  auto.
Qed.

Lemma paste_box_keeps_the_padding_witness :
  exists nw nh,
    scaled_size (800, 400) = Return (nw, nh) /\
    padding <= offset_x nw /\ offset_x nw + nw <= icon_size - padding /\
    padding <= offset_y nh /\ offset_y nh + nh <= icon_size - padding.
Proof.
  apply (paste_box_keeps_the_padding 800 400); vm_compute; intuition discriminate.
Defined.

(** X6: steps 3 to 6 on content of w x h pixels end in one of two ways:
    they return, or [resize] raises [ValueError] because a scaled
    dimension is zero.  They return whenever the longer side is less than
    744 times the shorter, and raise, leaving the filesystem untouched,
    whenever it is more. *)
Theorem compose_icon_outcome
        (LANCZOS : image rgba -> Z * Z -> Z * Z -> rgba)
        (car_img : image rgba) (w : world) (temp : file) :
  1 <= width car_img < 2 ^ 31 -> 1 <= height car_img < 2 ^ 31 ->
  fs w !! car_temp_png = Some temp ->
  let long := Z.max (width car_img) (height car_img) in
  let short := Z.min (width car_img) (height car_img) in
  ((exists w', compose_icon LANCZOS car_img w = (Return tt, w')) \/
   (exists w', compose_icon LANCZOS car_img w
               = (Raise (ValueError "height and width must be > 0"), w') /\
               fs w' = fs w)) /\
  (long < max_area * short ->
   exists w', compose_icon LANCZOS car_img w = (Return tt, w')) /\
  (max_area * short < long ->
   exists w', compose_icon LANCZOS car_img w
              = (Raise (ValueError "height and width must be > 0"), w') /\
              fs w' = fs w).
Proof.
  intros HW HH Htemp long short. unfold width, height in *.
  destruct (size car_img) as [cw ch] eqn:Hsz. cbn [fst snd] in *.
  destruct (scaled_size_proportional cw ch HW HH) as (nw & nh & Hs & Bw & Bh).
  fold long in Bw, Bh.
  destruct (proportional_size_bounds max_area long cw nw
              ltac:(reflexivity) ltac:(unfold long; lia) Bw) as (Rw & _).
  destruct (proportional_size_bounds max_area long ch nh
              ltac:(reflexivity) ltac:(unfold long; lia) Bh) as (Rh & _).
  rewrite compose_icon_run, Hsz, Hs. unfold Image.resize. cbn [fst snd].
  rewrite Htemp.
  assert (Hlong : 1 <= long) by (unfold long; lia).
  split_and!.
  - destruct ((nw <? 1) || (nh <? 1)); [right | left]; eexists; eauto.
  - intros Hfit.
    assert (Hnw : 1 <= nw).
    { destruct (Z.le_gt_cases 1 nw) as [|Hz]; [assumption|exfalso].
      assert (nw = 0) as -> by lia. unfold short in Hfit.
      pose proof (Z.mul_le_mono_nonneg_l (Z.min cw ch) cw max_area
                    ltac:(unfold max_area, icon_size, padding; lia) ltac:(lia)).
      lia. }
    assert (Hnh : 1 <= nh).
    { destruct (Z.le_gt_cases 1 nh) as [|Hz]; [assumption|exfalso].
      assert (nh = 0) as -> by lia. unfold short in Hfit.
      pose proof (Z.mul_le_mono_nonneg_l (Z.min cw ch) ch max_area
                    ltac:(unfold max_area, icon_size, padding; lia) ltac:(lia)).
      lia. }
    replace ((nw <? 1) || (nh <? 1)) with false; [eexists; reflexivity|].
    symmetry. apply orb_false_intro; apply Z.ltb_ge; assumption.
  - intros Hthin.
    assert (Hzero : nw < 1 \/ nh < 1).
    { unfold short in Hthin.
      destruct (Z.min_spec cw ch) as [[_ Hmin]|[_ Hmin]]; rewrite Hmin in Hthin.
      - left. destruct (Z.lt_ge_cases nw 1) as [|Hge]; [assumption|exfalso].
        pose proof (Z.mul_le_mono_nonneg_l 1 nw long ltac:(lia) Hge). lia.
      - right. destruct (Z.lt_ge_cases nh 1) as [|Hge]; [assumption|exfalso].
        pose proof (Z.mul_le_mono_nonneg_l 1 nh long ltac:(lia) Hge). lia. }
    replace ((nw <? 1) || (nh <? 1)) with true; [eexists; split; reflexivity|].
    symmetry. apply orb_true_iff. destruct Hzero; [left|right]; apply Z.ltb_lt; assumption.
Qed.

Lemma compose_icon_outcome_witness :
  exists w',
    compose_icon nearest (block_raster (800, 1) (0, 0, 800, 1))
      (set_fs (<[car_temp_png := Png (RGBA_image (block_raster (800, 1) (0, 0, 800, 1)))]>
                 (fs fresh_checkout)) fresh_checkout)
    = (Raise (ValueError "height and width must be > 0"), w') /\
    fs w' = <[car_temp_png := Png (RGBA_image (block_raster (800, 1) (0, 0, 800, 1)))]>
              (fs fresh_checkout).
Proof.
  destruct (compose_icon_outcome nearest (block_raster (800, 1) (0, 0, 800, 1))
              (set_fs (<[car_temp_png := Png (RGBA_image (block_raster (800, 1) (0, 0, 800, 1)))]>
                 (fs fresh_checkout)) fresh_checkout)
              (Png (RGBA_image (block_raster (800, 1) (0, 0, 800, 1)))))
    as (_ & _ & H).
  - vm_compute. intuition discriminate.
  - vm_compute. intuition discriminate.
  - vm_compute. reflexivity.
  - apply H. vm_compute. reflexivity.
Defined.

Lemma content_size_bounds (im : image rgba) :
  1 <= width im -> 1 <= height im ->
  1 <= width (content im) <= width im /\
  1 <= height (content im) <= height im.
Proof.
  intros HW HH. unfold content.
  destruct (Image.getbbox im) as [[[[x0 y0] x1] y1]|] eqn:Hb; [|lia].
  destruct (getbbox_inside im x0 y0 x1 y1 Hb) as (I1 & I2 & I3 & I4).
  unfold Image.crop, width, height in *. cbn [size fst snd]. lia.
Qed.

(** X7: whenever a run on a raster of positive size returns, the icon it
    wrote is white on the whole border of width [padding]: every pixel
    outside the square from 140 to 884 is (255, 255, 255), whatever the
    logo looks like. *)
Theorem icon_border_is_white
        (PATH : string -> option program)
        (LANCZOS : image rgba -> Z * Z -> Z * Z -> rgba)
        (w w' : world) (im : any_image) :
  generate_icon PATH LANCZOS w = (Return tt, w') ->
  rasterized PATH w !! car_temp_png = Some (Png im) ->
  1 <= width (as_rgba im) < 2 ^ 31 -> 1 <= height (as_rgba im) < 2 ^ 31 ->
  exists icon_rgb : image rgb,
    fs w' !! icon_png = Some (Png (RGB_image icon_rgb)) /\
    size icon_rgb = (icon_size, icon_size) /\
    forall x y,
      ~ (padding <= x < icon_size - padding /\
         padding <= y < icon_size - padding) ->
      getpixel icon_rgb (x, y) = (255, 255, 255).
Proof.
  intros Hrun Hraster HW HH. rewrite generate_icon_run in Hrun.
  unfold rasterized in Hraster.
  destruct (PATH rsvg_convert) as [prog|]; [|discriminate].
  destruct (prog rsvg_args (fs w)) as [code m]. cbn [fst snd] in *.
  destruct (code =? 0); [|discriminate].
  rewrite Hraster in Hrun. rewrite compose_icon_run in Hrun.
  destruct (content_size_bounds (as_rgba im) ltac:(lia) ltac:(lia)) as [Cw Ch].
  unfold width, height in Cw, Ch, HW, HH.
  destruct (size (content (as_rgba im))) as [cw ch] eqn:Hsz. cbn [fst snd] in *.
  destruct (scaled_size_proportional cw ch ltac:(lia) ltac:(lia))
    as (nw & nh & Hs & Bw & Bh).
  destruct (proportional_size_bounds max_area (Z.max cw ch) cw nw
              ltac:(reflexivity) ltac:(lia) Bw) as (Rw & _).
  destruct (proportional_size_bounds max_area (Z.max cw ch) ch nh
              ltac:(reflexivity) ltac:(lia) Bh) as (Rh & _).
  rewrite Hs in Hrun.
  destruct (Image.resize _ _ _) as [e|resized] eqn:Er; [discriminate|].
  apply resize_returns in Er as (Hrs & _).
  cbn [fs set_fs record_calls] in Hrun. rewrite Hraster in Hrun.
  inversion Hrun; subst w'. clear Hrun.
  exists (flattened resized (nw, nh)). cbn [fs set_fs]. split_and!.
  - rewrite lookup_delete_ne by discriminate. apply lookup_insert_eq.
  - reflexivity.
  - intros x y Hout. apply flattened_outside; [exact Hrs|]. cbn [fst snd].
    destruct (offset_keeps_padding nw Rw) as (A & B & _).
    destruct (offset_keeps_padding nh Rh) as (_ & _ & C & D). lia.
Qed.

Lemma icon_border_is_white_witness :
  exists icon_rgb : image rgb,
    fs (snd (generate_icon
               (only_rsvg (writes (Png (RGBA_image
                  (block_raster (8, 6) (2, 1, 5, 4)))) 0))
               nearest fresh_checkout)) !! icon_png
    = Some (Png (RGB_image icon_rgb)) /\
    size icon_rgb = (icon_size, icon_size) /\
    forall x y,
      ~ (padding <= x < icon_size - padding /\
         padding <= y < icon_size - padding) ->
      getpixel icon_rgb (x, y) = (255, 255, 255).
Proof.
  apply (icon_border_is_white
           (only_rsvg (writes (Png (RGBA_image
              (block_raster (8, 6) (2, 1, 5, 4)))) 0))
           nearest fresh_checkout _
           (RGBA_image (block_raster (8, 6) (2, 1, 5, 4)))).
  - apply run_returns. vm_compute. reflexivity.
  - vm_compute. reflexivity.
  - vm_compute. intuition discriminate.
  - vm_compute. intuition discriminate.
Defined.

(* ===================================================================== *)
(** * Step 5 further: what the paste shows *)
(* ===================================================================== *)

Lemma div255_range (t : Z) : 0 <= t <= 65025 -> band (Image.div255 t).
Proof.
  unfold band, Image.div255. intros Ht. cbv zeta.
  rewrite !Z.shiftr_div_pow2 by lia. change (2 ^ 8) with 256.
  pose proof (Z.div_mod (t + 128) 256 ltac:(lia)) as H1.
  pose proof (Z.mod_pos_bound (t + 128) 256 ltac:(lia)) as M1.
  set (q := (t + 128) / 256) in *.
  pose proof (Z.div_mod (q + (t + 128)) 256 ltac:(lia)) as H2.
  pose proof (Z.mod_pos_bound (q + (t + 128)) 256 ltac:(lia)) as M2.
  lia.
Qed.

Lemma blend_range (a dst src : Z) :
  band a -> band dst -> band src -> band (Image.blend a dst src).
Proof.
  unfold band at 1 2 3. intros Ha Hd Hs. unfold Image.blend.
  apply div255_range.
  pose proof (Z.mul_nonneg_nonneg dst (255 - a) ltac:(lia) ltac:(lia)).
  pose proof (Z.mul_nonneg_nonneg src a ltac:(lia) ltac:(lia)).
  pose proof (Z.mul_le_mono_nonneg_r dst 255 (255 - a) ltac:(lia) ltac:(lia)).
  pose proof (Z.mul_le_mono_nonneg_r src 255 a ltac:(lia) ltac:(lia)).
  lia.
Qed.

(** Where the mask is 0 the canvas pixel stays. *)
Lemma blend_transparent (dst src : Z) : band dst -> Image.blend 0 dst src = dst.
Proof.
  intros Hd. unfold Image.blend.
  replace (dst * (255 - 0) + src * 0) with (dst * 255) by lia.
  apply div255_exact, Hd.
Qed.

(** X8: inside the paste box each icon pixel is the resized content
    blended onto white with the content's own alpha as weight: white
    where the content is fully transparent, the content's colour where it
    is fully opaque, and always three 8-bit bands when the content's bands
    are 8-bit. *)
Theorem pasted_pixels_blend_onto_white (resized : image rgba) (x y : Z) :
  let ox := offset_x (width resized) in
  let oy := offset_y (height resized) in
  let p := getpixel resized (x - ox, y - oy) in
  let out := getpixel (flattened resized (size resized)) (x, y) in
  ox <= x < ox + width resized -> oy <= y < oy + height resized ->
  out = Image.drop_alpha (Image.blend_rgba (alpha p) white p) /\
  (alpha p = 0 -> out = (255, 255, 255)) /\
  (valid_rgba p -> alpha p = 255 -> out = Image.drop_alpha p) /\
  (valid_rgba p -> Forall band (getbands out)).
Proof.
  intros ox oy p out Hx Hy.
  assert (Hout : out = Image.drop_alpha (Image.blend_rgba (alpha p) white p)).
  { apply (flattened_inside resized (size resized) x y eq_refl); assumption. }
  split; [exact Hout|]. rewrite Hout. clear Hout out.
  destruct p as [[[r g] b] a] eqn:Hp. cbn [alpha]. split_and!.
  - intros ->. unfold white, Image.blend_rgba, Image.drop_alpha.
    rewrite !blend_transparent by (unfold band; lia). reflexivity.
  - intros Hv ->. rewrite blend_rgba_opaque by exact Hv. reflexivity.
  - intros (Hr & Hg & Hb & Ha).
    unfold white, Image.blend_rgba, Image.drop_alpha. cbn [getbands Mode_RGB].
    repeat constructor; apply blend_range; auto; unfold band; lia.
Qed.

Lemma pasted_pixels_blend_onto_white_witness :
  getpixel (flattened (Image.new (744, 744) (200, 30, 40, 0)) (744, 744))
           (140, 140) = (255, 255, 255).
Proof.
  destruct (pasted_pixels_blend_onto_white
              (Image.new (744, 744) (200, 30, 40, 0)) 140 140)
    as (_ & H & _).
  - vm_compute. intuition discriminate.
  - vm_compute. intuition discriminate.
  - apply H. reflexivity.
Defined.

(* ===================================================================== *)
(** * Step 4 further: orientation *)
(* ===================================================================== *)

(** [min] on two positive floats does not depend on the order of its
    arguments: when neither is smaller they are the same float. *)
Lemma min_positive_comm (ma mb : positive) (ea eb : Z) :
  PyFloat.min (S754_finite false ma ea) (S754_finite false mb eb) =
  PyFloat.min (S754_finite false mb eb) (S754_finite false ma ea).
Proof.
  unfold PyFloat.min, SFltb, SFcompare.
  rewrite (Z.compare_antisym ea eb).
  change (Pos.compare_cont Eq mb ma) with (Pos.compare mb ma).
  change (Pos.compare_cont Eq ma mb) with (Pos.compare ma mb).
  rewrite (Pos.compare_antisym ma mb).
  destruct (Z.compare_spec ea eb) as [->|?|?]; cbn [CompOpp]; try reflexivity.
  destruct (Pos.compare_spec ma mb) as [->|?|?]; cbn [CompOpp]; reflexivity.
Qed.

(** X9: the scaled size does not depend on the orientation of the content:
    content of h x w pixels gets the scaled size of w x h content with the
    two numbers exchanged. *)
Theorem scaled_size_transposes (w h : Z) :
  1 <= w < 2 ^ 31 -> 1 <= h < 2 ^ 31 ->
  exists nw nh,
    scaled_size (w, h) = Return (nw, nh) /\
    scaled_size (h, w) = Return (nh, nw).
Proof.
  intros Hw Hh.
  assert (H31 : 2 ^ 31 < 2 ^ 53) by reflexivity.
  destruct (scaled_size_proportional w h Hw Hh) as (nw & nh & Hs & _).
  exists nw, nh. split; [exact Hs|].
  destruct (truediv_max_area w ltac:(lia)) as (ma & ea & Ha & _).
  destruct (truediv_max_area h ltac:(lia)) as (mb & eb & Hb & _).
  unfold scaled_size, scale in *. rewrite Ha, Hb in *.
  cbn [mbind result_bind mret result_ret] in *.
  rewrite (min_positive_comm mb ma eb ea).
  unfold new_w, new_h in *.
  destruct (PyFloat.int (PyFloat.mul_int w _)) as [e|a]; [discriminate|].
  cbn [mbind result_bind] in Hs.
  destruct (PyFloat.int (PyFloat.mul_int h _)) as [e|b]; [discriminate|].
  inversion Hs; subst. reflexivity.
Qed.

Lemma scaled_size_transposes_witness :
  exists nw nh,
    scaled_size (800, 400) = Return (nw, nh) /\
    scaled_size (400, 800) = Return (nh, nw).
Proof.
  apply (scaled_size_transposes 800 400); vm_compute; intuition discriminate.
Defined.
